(** * pubchem_matcher.py: annotation of MSP spectra with PubChem counts

    A shallow embedding of [match_pubchem_data] (src/pubchem_matcher.py)
    and the properties of its reader, matcher, annotator and statistics.

    Conventions of the embedding.
    - A Python [str] is a [string]; one [ascii] is one code point, so the
      model covers text whose code points lie below U+0100.  [str.lower],
      [str.strip] and [str.startswith] are written out on that range.
    - The input file is the list of its lines as the iteration
      [for line in fi] yields them; the output file is the list of the
      strings handed to [fo.writelines], in order.
    - The table returned by [pd.read_csv] is a list of column names and a
      list of rows of cells.  Only what the function uses of pandas is
      modelled: [set_index], [key in df.index], [df.loc[key]],
      [df[column]], boolean-mask selection, [.empty], [.iloc[0]] and
      item access on the selected row.
    - Python exceptions are values of [exn]; code that may raise lives in
      the error monad [exn + A]. *)

From Stdlib Require Import String Ascii List Bool Arith ZArith Lia.
From Stdlib Require Import QArith DecimalString.
Import ListNotations.
Local Close Scope Q_scope.
Local Open Scope nat_scope.
Local Open Scope string_scope.
Local Open Scope list_scope.

(** ** Exceptions and the error monad *)

Inductive exn : Type :=
| KeyError (key : string)
| IndexError
| ZeroDivisionError.

Definition ret {A} (a : A) : exn + A := inr a.

Definition bind {A B} (m : exn + A) (k : A -> exn + B) : exn + B :=
  match m with
  | inl e => inl e
  | inr a => k a
  end.

Notation "x <- m ;; k" := (bind m (fun x => k))
  (at level 61, m at next level, right associativity).
Notation "' p <- m ;; k" := (bind m (fun x => let p := x in k))
  (at level 61, p pattern, m at next level, right associativity).

(** ** The [str] methods the function calls *)

Module Py.

(** [str.isspace] on one code point below U+0100: TAB..CR, FS..US, SPACE,
    NEL and NBSP. *)
Definition isspace (c : ascii) : bool :=
  let n := nat_of_ascii c in
  (((9 <=? n) && (n <=? 13)) || ((28 <=? n) && (n <=? 32))
   || (n =? 133) || (n =? 160))%nat.

(** [str.lower] on one code point below U+0100: A..Z and the Latin-1
    capitals (all of U+00C0..U+00DE but the multiplication sign). *)
Definition lower_char (c : ascii) : ascii :=
  let n := nat_of_ascii c in
  if (((65 <=? n) && (n <=? 90))
      || ((192 <=? n) && (n <=? 222) && negb (n =? 215)))%nat
  then ascii_of_nat (n + 32) else c.

Fixpoint lower (s : string) : string :=
  match s with
  | EmptyString => EmptyString
  | String c r => String (lower_char c) (lower r)
  end.

Fixpoint lstrip (s : string) : string :=
  match s with
  | EmptyString => EmptyString
  | String c r => if isspace c then lstrip r else s
  end.

Fixpoint rstrip (s : string) : string :=
  match s with
  | EmptyString => EmptyString
  | String c r =>
      match rstrip r with
      | EmptyString => if isspace c then EmptyString else String c EmptyString
      | r' => String c r'
      end
  end.

(** [s.strip()] *)
Definition strip (s : string) : string := rstrip (lstrip s).

(** [s.startswith(p)] *)
Definition startswith (s p : string) : bool := prefix p s.

(** [s.split(":", 1)]: one piece when [s] holds no colon, else the text
    before the first colon and the text after it. *)
Fixpoint split_colon (s : string) : list string :=
  match s with
  | EmptyString => [EmptyString]
  | String c r =>
      if Ascii.eqb c ":" then [EmptyString; r]
      else match split_colon r with
           | h :: t => String c h :: t
           | [] => []
           end
  end.

(** [l[i]] on a list *)
Definition item {A} (l : list A) (i : nat) : exn + A :=
  match nth_error l i with
  | Some a => inr a
  | None => inl IndexError
  end.

(** [bool(x)] for [x] that is [None] or a [str] *)
Definition truthy (x : option string) : bool :=
  match x with
  | Some s => negb (String.eqb s "")
  | None => false
  end.

(** [str(n)] of an integer *)
Definition str_of_int (z : Z) : string := NilZero.string_of_int (Z.to_int z).

(** The line feed that ends a line of the input *)
Definition LF : string := String (ascii_of_nat 10) EmptyString.

(** [l.insert(i, x)]: before position [i], at the end when [i] is past it. *)
Definition insert {A} (i : nat) (x : A) (l : list A) : list A :=
  firstn i l ++ x :: skipn i l.

End Py.

(** ** The part of pandas the function uses *)

Module Pandas.

(** A cell of the table: text or an integer. *)
Inductive cell : Type :=
| CStr (s : string)
| CInt (z : Z).

(** The frame [pd.read_csv] returns: column names and rows of cells. *)
Record DataFrame : Type := mkDataFrame {
  columns : list string;
  data : list (list cell)
}.

(** The frame after [set_index]: every row carries its index label; the
    index column is no longer among the columns. *)
Record Indexed : Type := mkIndexed {
  icolumns : list string;
  irows : list (cell * list cell)
}.

(** What [df.loc[key]] and [match.iloc[0]] return: one row, as a Series
    labelled by the column names, or, for a label held by several rows,
    the frame of these rows. *)
Inductive Selection : Type :=
| Series (cols : list string) (cells : list cell)
| Frame (fr : Indexed).

(** What [row[name]] returns: a scalar from a Series, the whole column
    (with its name and index labels) from a frame. *)
Inductive Value : Type :=
| Scalar (c : cell)
| Column (name : string) (labels : list cell) (cells : list cell).

Fixpoint position (name : string) (cols : list string) : option nat :=
  match cols with
  | [] => None
  | c :: r => if String.eqb c name then Some 0 else option_map S (position name r)
  end.

Definition drop {A} (i : nat) (l : list A) : list A :=
  firstn i l ++ skipn (S i) l.

(** The cell read where a row has none for the column.  pandas holds NaN
    there, which, like this cell, equals no identifier of a record; how a
    NaN count is written is not modelled, and what is stated of written
    counts is stated of integer cells. *)
Definition missing : cell := CStr EmptyString.

(** [df.set_index(name)]; when [name] is not a column pandas raises
    [KeyError] with the message spelled here. *)
Definition set_index (name : string) (df : DataFrame) : exn + Indexed :=
  match position name (columns df) with
  | None => inl (KeyError ("None of ['" ++ name ++ "'] are in the columns"))
  | Some i =>
      inr {| icolumns := drop i (columns df);
             irows := map (fun r => (nth i r missing, drop i r)) (data df) |}
  end.

(** [cell == key] for a [str] key *)
Definition is_str (key : string) (c : cell) : bool :=
  match c with
  | CStr s => String.eqb s key
  | CInt _ => false
  end.

(** [key in df.index] *)
Definition index_contains (fr : Indexed) (key : string) : bool :=
  existsb (fun r => is_str key (fst r)) (irows fr).

(** [df.loc[key]]: a Series when one row bears the label, a frame when
    several do, [KeyError] when none does. *)
Definition loc (fr : Indexed) (key : string) : exn + Selection :=
  match filter (fun r => is_str key (fst r)) (irows fr) with
  | [] => inl (KeyError key)
  | [r] => inr (Series (icolumns fr) (snd r))
  | rs => inr (Frame {| icolumns := icolumns fr; irows := rs |})
  end.

(** [df[name]] *)
Definition column (fr : Indexed) (name : string) : exn + list cell :=
  match position name (icolumns fr) with
  | None => inl (KeyError name)
  | Some i => inr (map (fun r => nth i (snd r) missing) (irows fr))
  end.

(** [df[mask]] for a boolean mask *)
Fixpoint select {A} (rows : list A) (mask : list bool) : list A :=
  match rows, mask with
  | r :: rs, b :: bs => if b then r :: select rs bs else select rs bs
  | _, _ => []
  end.

Definition masked (fr : Indexed) (mask : list bool) : Indexed :=
  {| icolumns := icolumns fr; irows := select (irows fr) mask |}.

(** [df.empty] *)
Definition empty (fr : Indexed) : bool :=
  match irows fr with
  | [] => true
  | _ :: _ => false
  end.

(** [df.iloc[0]] *)
Definition iloc0 (fr : Indexed) : exn + Selection :=
  match irows fr with
  | r :: _ => inr (Series (icolumns fr) (snd r))
  | [] => inl IndexError
  end.

(** [row[name]] *)
Definition getitem (row : Selection) (name : string) : exn + Value :=
  match row with
  | Series cols cells =>
      match position name cols with
      | None => inl (KeyError name)
      | Some i => inr (Scalar (nth i cells missing))
      end
  | Frame fr =>
      cs <- column fr name ;;
      ret (Column name (map fst (irows fr)) cs)
  end.

End Pandas.
Import Pandas.

(** ** The statistics dictionary (lines 13-24) *)

Record Stats : Type := mkStats {
  total_spectra : nat;
  matched_by_inchikey : nat;
  matched_by_smiles : nat;
  total_matched : nat;
  spectra_with_inchikey : nat;
  spectra_with_smiles : nat;
  spectra_with_both : nat;
  spectra_with_neither : nat;
  pubmed_counts : list Value;
  patent_counts : list Value
}.

Definition stats0 : Stats := mkStats 0 0 0 0 0 0 0 0 [] [].

(** The counters of the dictionary, and [stats[k] += 1]. *)
Inductive counter : Type :=
| Total_spectra | Matched_by_inchikey | Matched_by_smiles | Total_matched
| Spectra_with_inchikey | Spectra_with_smiles | Spectra_with_both
| Spectra_with_neither.

Definition incr (k : counter) (st : Stats) : Stats :=
  let '(mkStats t mi ms tm wi ws wb wn pm pt) := st in
  match k with
  | Total_spectra => mkStats (S t) mi ms tm wi ws wb wn pm pt
  | Matched_by_inchikey => mkStats t (S mi) ms tm wi ws wb wn pm pt
  | Matched_by_smiles => mkStats t mi (S ms) tm wi ws wb wn pm pt
  | Total_matched => mkStats t mi ms (S tm) wi ws wb wn pm pt
  | Spectra_with_inchikey => mkStats t mi ms tm (S wi) ws wb wn pm pt
  | Spectra_with_smiles => mkStats t mi ms tm wi (S ws) wb wn pm pt
  | Spectra_with_both => mkStats t mi ms tm wi ws (S wb) wn pm pt
  | Spectra_with_neither => mkStats t mi ms tm wi ws wb (S wn) pm pt
  end.

(** [stats["pubmed_counts"].append(v)] and [stats["patent_counts"].append(v)] *)
Definition append_pubmed (v : Value) (st : Stats) : Stats :=
  let '(mkStats t mi ms tm wi ws wb wn pm pt) := st in
  mkStats t mi ms tm wi ws wb wn (pm ++ [v]) pt.

Definition append_patent (v : Value) (st : Stats) : Stats :=
  let '(mkStats t mi ms tm wi ws wb wn pm pt) := st in
  mkStats t mi ms tm wi ws wb wn pm (pt ++ [v]).

(** The variables of the loop: the statistics, what has been written to
    [fo], the block being collected and the two identifiers. *)
Record Loop : Type := mkLoop {
  stats : Stats;
  fo : list string;
  spectrum_block : list string;
  inchi_key : option string;
  smiles : option string
}.

Definition loop0 : Loop := mkLoop stats0 [] [] None None.

(** How a record was matched: which of the two counters of lines 61 and
    66 was incremented, if any. *)
Inductive Method : Type := ByInchikey | BySmiles | Unmatched.

(** A matched count that is an integer, as lines 116-130 need it. *)
Definition numeric (v : Value) : bool :=
  match v with
  | Scalar (CInt _) => true
  | _ => false
  end.

(** The run as seen from outside.  [Raised]: an exception, with what had
    been written to the output by then.  [Reported]: the function returns
    the statistics, with the output and the percentage of line 99; the
    matched counts are then all integers, of which lines 116-130 print
    minimum, maximum, mean and median.  [NotSummarised]: the run got past
    line 99 with a matched count that is text or a whole column; lines
    116-130 hand such counts to pandas, and what it does with them is
    left open: the function is not said to return. *)
Inductive Outcome : Type :=
| Raised (e : exn) (written : list string)
| Reported (st : Stats) (written : list string) (percent : Q)
| NotSummarised (st : Stats) (written : list string) (percent : Q).

(** The text pandas prints for a column of several rows: [str] of a
    Series, given its name, index labels and cells.  Its layout plays no
    part in the function and is left open. *)
Definition render : Type := string -> list cell -> list cell -> string.

Section Matcher.

Variable series_str : render.

(** The text an f-string puts for [{row[name]}]. *)
Definition format_value (v : Value) : string :=
  match v with
  | Scalar (CStr s) => s
  | Scalar (CInt z) => Py.str_of_int z
  | Column name labels cells => series_str name labels cells
  end.

(** Lines 35-38: the identifier headers. *)
Definition read_header (line : string) (ids : option string * option string)
  : exn + (option string * option string) :=
  if Py.startswith line "Inchikey:" || Py.startswith line "InChIKey:" then
    v <- Py.item (Py.split_colon line) 1 ;;
    ret (Some (Py.strip v), snd ids)
  else if Py.startswith line "Smiles:" then
    v <- Py.item (Py.split_colon line) 1 ;;
    ret (fst ids, Some (Py.strip v))
  else ret ids.

(** Lines 44-54: the identifier-availability counters. *)
Definition count_presence (ik sm : option string) (st : Stats) : Stats :=
  let has_inchikey := Py.truthy ik in
  let has_smiles := Py.truthy sm in
  if has_inchikey && has_smiles then incr Spectra_with_both st
  else if has_inchikey then incr Spectra_with_inchikey st
  else if has_smiles then incr Spectra_with_smiles st
  else incr Spectra_with_neither st.

(** The string held by an identifier variable that is not [None]. *)
Definition str_of (x : option string) : string :=
  match x with
  | Some s => s
  | None => EmptyString
  end.

(** Lines 57-66: the row of the table for the record, if any, and the
    way it was found. *)
Definition find_row (pubchem_df : Indexed) (ik sm : option string)
  : exn + (option Selection * Method) :=
  if Py.truthy ik && index_contains pubchem_df (str_of ik) then
    row <- loc pubchem_df (str_of ik) ;;
    ret (Some row, ByInchikey)
  else if Py.truthy sm then
    col <- column pubchem_df "SMILES" ;;
    let m := masked pubchem_df (map (is_str (str_of sm)) col) in
    if negb (empty m) then
      row <- iloc0 m ;;
      ret (Some row, BySmiles)
    else ret (None, Unmatched)
  else ret (None, Unmatched).

Definition count_method (m : Method) (st : Stats) : Stats :=
  match m with
  | ByInchikey => incr Matched_by_inchikey st
  | BySmiles => incr Matched_by_smiles st
  | Unmatched => st
  end.

(** Line 74: the test of the anchor line. *)
Definition is_anchor (line_content : string) : bool :=
  Py.startswith (Py.lower line_content) "num peaks".

(** The index at which the loop of line 73 stops, if it does. *)
Fixpoint find_anchor (block : list string) : option nat :=
  match block with
  | [] => None
  | l :: rest => if is_anchor l then Some 0 else option_map S (find_anchor rest)
  end.

(** Lines 73-83: the two insertions before the first anchor line. *)
Definition insert_counts (row : Selection) (block : list string)
  : exn + list string :=
  match find_anchor block with
  | None => ret block
  | Some idx =>
      pm <- getitem row "PubMed_Count" ;;
      let block := Py.insert idx ("PubMed_Count: " ++ format_value pm ++ Py.LF)%string block in
      pt <- getitem row "Patent_Count" ;;
      ret (Py.insert (idx + 1) ("Patent_Count: " ++ format_value pt ++ Py.LF)%string block)
  end.

(** Lines 68-83: the statistics and the block of a matched record. *)
Definition annotate (row : Selection) (block : list string) (st : Stats)
  : exn + (list string * Stats) :=
  let st := incr Total_matched st in
  pm <- getitem row "PubMed_Count" ;;
  let st := append_pubmed pm st in
  pt <- getitem row "Patent_Count" ;;
  let st := append_patent pt st in
  block <- insert_counts row block ;;
  ret (block, st).

(** Lines 41-88: a blank line closes the record. *)
Definition close_record (pubchem_df : Indexed) (s : Loop) : exn + Loop :=
  let st := incr Total_spectra (stats s) in
  let st := count_presence (inchi_key s) (smiles s) st in
  '(pubchem_row, m) <- find_row pubchem_df (inchi_key s) (smiles s) ;;
  let st := count_method m st in
  '(block, st) <- match pubchem_row with
                  | Some row => annotate row (spectrum_block s) st
                  | None => ret (spectrum_block s, st)
                  end ;;
  ret (mkLoop st (fo s ++ block) [] None None).

(** Lines 34-88: one turn of the loop. *)
Definition loop_body (pubchem_df : Indexed) (s : Loop) (line : string)
  : exn + Loop :=
  let block := spectrum_block s ++ [line] in
  '(ik, sm) <- read_header line (inchi_key s, smiles s) ;;
  let s := mkLoop (stats s) (fo s) block ik sm in
  if String.eqb (Py.strip line) "" then close_record pubchem_df s
  else ret s.

(** Lines 33-88: the loop over the lines of the input.  An exception
    leaves the loop with what the output holds at that point. *)
Fixpoint read_loop (pubchem_df : Indexed) (s : Loop) (fi : list string)
  : exn * list string + Loop :=
  match fi with
  | [] => inr s
  | line :: rest =>
      match loop_body pubchem_df s line with
      | inl e => inl (e, fo s)
      | inr s' => read_loop pubchem_df s' rest
      end
  end.

(** Line 99: [total_matched / total_spectra * 100]. *)
Definition percent_matched (st : Stats) : exn + Q :=
  if Nat.eqb (total_spectra st) 0 then inl ZeroDivisionError
  else inr (inject_Z (Z.of_nat (total_matched st))
            / inject_Z (Z.of_nat (total_spectra st)) * 100)%Q.

(** The function, from the parsed table and the lines of the input. *)
Definition match_pubchem_data (pubchem_df : DataFrame) (fi : list string)
  : Outcome :=
  match set_index "FirstBlock" pubchem_df with
  | inl e => Raised e []
  | inr pubchem_df =>
      match read_loop pubchem_df loop0 fi with
      | inl (e, written) => Raised e written
      | inr s =>
          match percent_matched (stats s) with
          | inl e => Raised e (fo s)
          | inr p =>
              if forallb numeric (pubmed_counts (stats s) ++ patent_counts (stats s))
              then Reported (stats s) (fo s) p
              else NotSummarised (stats s) (fo s) p
          end
      end
  end.

End Matcher.

(** ** The wording of the specification

    The reader and the annotator are specified on the trimmed,
    case-folded form of a line; these definitions follow that wording, to
    be compared with [read_header] and [is_anchor].  Case folding is
    written as lowering: the two agree on ASCII text, and a line that
    lower-cases to one of the three prefixes case-folds to it as well. *)

Definition spec_inchikey_header (line : string) : bool :=
  Py.startswith (Py.lower (Py.strip line)) "inchikey:".

Definition spec_smiles_header (line : string) : bool :=
  Py.startswith (Py.lower (Py.strip line)) "smiles:".

Definition spec_anchor (line : string) : bool :=
  Py.startswith (Py.lower (Py.strip line)) "num peaks".

(** The four identifier-presence buckets, "both" first. *)
Inductive Bucket : Type := Both | PrimaryOnly | SecondaryOnly | Neither.

Definition spec_bucket (ik sm : option string) : Bucket :=
  match Py.truthy ik, Py.truthy sm with
  | true, true => Both
  | true, false => PrimaryOnly
  | false, true => SecondaryOnly
  | false, false => Neither
  end.

Definition bucket_count (b : Bucket) (st : Stats) : nat :=
  match b with
  | Both => spectra_with_both st
  | PrimaryOnly => spectra_with_inchikey st
  | SecondaryOnly => spectra_with_smiles st
  | Neither => spectra_with_neither st
  end.

Definition Bucket_eqb (a b : Bucket) : bool :=
  match a, b with
  | Both, Both | PrimaryOnly, PrimaryOnly
  | SecondaryOnly, SecondaryOnly | Neither, Neither => true
  | _, _ => false
  end.

Definition bucket_sum (st : Stats) : nat :=
  spectra_with_both st + spectra_with_inchikey st
  + spectra_with_smiles st + spectra_with_neither st.


(** A line that closes a record, and the number of records of an input. *)
Definition blank (line : string) : bool := String.eqb (Py.strip line) "".

Definition records (fi : list string) : nat := length (filter blank fi).

(** The cell of a row under a column name. *)
Definition field (cols : list string) (name : string) (cells : list cell)
  : option cell :=
  option_map (fun i => nth i cells missing) (position name cols).

(** The column names under which a selected row can be read. *)
Definition selection_columns (row : Selection) : list string :=
  match row with
  | Series cols _ => cols
  | Frame fr => icolumns fr
  end.

(** The table has the three columns the loop reads. *)
Definition has_columns (fr : Indexed) : Prop :=
  In "SMILES" (icolumns fr) /\ In "PubMed_Count" (icolumns fr)
  /\ In "Patent_Count" (icolumns fr).

(** Primary lookup succeeds: the identifier is not empty and some row
    is indexed by it. *)
Definition primary_found (fr : Indexed) (ik : option string) : Prop :=
  Py.truthy ik = true
  /\ exists r, In r (irows fr) /\ fst r = CStr (str_of ik).

(** The secondary scan finds an entry: the identifier is not empty and
    some row holds it in its [SMILES] cell. *)
Definition secondary_found (fr : Indexed) (sm : option string) : Prop :=
  Py.truthy sm = true
  /\ exists r, In r (irows fr)
              /\ field (icolumns fr) "SMILES" (snd r) = Some (CStr (str_of sm)).

(** [r] is the first row, in the order of the table, whose [SMILES] cell
    is [sm]. *)
Definition first_with_smiles (fr : Indexed) (sm : string)
  (r : cell * list cell) : Prop :=
  exists pre post,
    irows fr = pre ++ r :: post
    /\ field (icolumns fr) "SMILES" (snd r) = Some (CStr sm)
    /\ forall r', In r' pre ->
                  field (icolumns fr) "SMILES" (snd r') <> Some (CStr sm).

(** ** Notions for the properties of a whole run *)

(** The lines of the input up to its last blank line: the records the
    loop closes. *)
Fixpoint consumed (fi : list string) : list string :=
  match fi with
  | [] => []
  | l :: rest => if blank l || existsb blank rest then l :: consumed rest else []
  end.



(** A line that one of the three tests of lines 35-38 takes for a
    header. *)
Definition is_header (l : string) : bool :=
  Py.startswith l "Inchikey:" || Py.startswith l "InChIKey:"
  || Py.startswith l "Smiles:".

Definition is_inchikey_header (l : string) : bool :=
  Py.startswith l "Inchikey:" || Py.startswith l "InChIKey:".

(** A header with nothing but white space after its colon. *)
Definition valueless_header (l : string) : Prop :=
  exists rest,
    (l = ("Inchikey:" ++ rest)%string \/ l = ("InChIKey:" ++ rest)%string
     \/ l = ("Smiles:" ++ rest)%string)
    /\ Py.strip rest = "".

(** An input that ends where a record ends. *)
Definition at_boundary (fi : list string) : Prop :=
  fi = [] \/ exists pre l, fi = pre ++ [l] /\ blank l = true.

(** The statistics of two runs put together. *)
Definition merge_stats (a b : Stats) : Stats :=
  mkStats (total_spectra a + total_spectra b)
          (matched_by_inchikey a + matched_by_inchikey b)
          (matched_by_smiles a + matched_by_smiles b)
          (total_matched a + total_matched b)
          (spectra_with_inchikey a + spectra_with_inchikey b)
          (spectra_with_smiles a + spectra_with_smiles b)
          (spectra_with_both a + spectra_with_both b)
          (spectra_with_neither a + spectra_with_neither b)
          (pubmed_counts a ++ pubmed_counts b)
          (patent_counts a ++ patent_counts b).

(** The result of a run that starts where an earlier run, of statistics
    [st] and output [out], stopped at the end of a record. *)
Definition continued (st : Stats) (out : list string)
  (r : exn * list string + Loop) : exn * list string + Loop :=
  match r with
  | inl (e, written) => inl (e, out ++ written)
  | inr s => inr (mkLoop (merge_stats st (stats s)) (out ++ fo s)
                         (spectrum_block s) (inchi_key s) (smiles s))
  end.

(** ** Inputs of the examples *)

(** A rendering of a several-row column, one cell per line, for running
    the examples; none of them depends on its layout. *)
Definition series_lines : render := fun name labels cells =>
  fold_right (fun c acc => (format_value (fun _ _ _ => "") (Scalar c) ++ Py.LF ++ acc)%string)
             ("Name: " ++ name)%string cells.

Definition line (s : string) : string := (s ++ Py.LF)%string.

(** The row of the end-to-end example of the specification. *)
Definition ethanol_table : DataFrame :=
  mkDataFrame ["FirstBlock"; "SMILES"; "PubMed_Count"; "Patent_Count"]
              [[CStr "ABCDEFGHIJKLMN"; CStr "CCO"; CInt 12; CInt 3]].

Definition ethanol_record : list string :=
  [line "Name: Ethanol"; line "InChIKey: ABCDEFGHIJKLMN"; line "Num Peaks: 2";
   line "1 2"; line "3 4"; line ""].

Definition ethanol_index : Indexed :=
  mkIndexed ["SMILES"; "PubMed_Count"; "Patent_Count"]
            [(CStr "ABCDEFGHIJKLMN", [CStr "CCO"; CInt 12; CInt 3])].

Definition ethanol_row : Selection :=
  Series ["SMILES"; "PubMed_Count"; "Patent_Count"] [CStr "CCO"; CInt 12; CInt 3].

(** A header in capitals, and a record whose anchor line is indented. *)
Definition capital_header : string := line "INCHIKEY: ABCDEFGHIJKLMN".


(** A table without its count columns, and an input of two records of
    which the second bears a known identifier. *)
Definition countless_table : DataFrame :=
  mkDataFrame ["FirstBlock"; "SMILES"] [[CStr "ABCDEFGHIJKLMN"; CStr "CCO"]].

Definition countless_index : Indexed :=
  mkIndexed ["SMILES"] [(CStr "ABCDEFGHIJKLMN", [CStr "CCO"])].

Definition two_records : list string :=
  [line "Name: Unknown"; line ""; line "InChIKey: ABCDEFGHIJKLMN"; line ""].

(** A table with two rows under one primary identifier. *)
Definition duplicate_table : DataFrame :=
  mkDataFrame ["FirstBlock"; "SMILES"; "PubMed_Count"; "Patent_Count"]
              [[CStr "ABCDEFGHIJKLMN"; CStr "CCO"; CInt 12; CInt 3];
               [CStr "ABCDEFGHIJKLMN"; CStr "OCC"; CInt 7; CInt 5]].

(** ** Examples *)

Example strip_ex : Py.strip ("  InChIKey: AB C " ++ Py.LF) = "InChIKey: AB C".
Proof. reflexivity. Qed.

Example split_ex : Py.split_colon "a:b:c" = ["a"; "b:c"].
Proof. reflexivity. Qed.

Example split_no_colon_ex : Py.split_colon "abc" = ["abc"].
Proof. reflexivity. Qed.

Example lower_ex : Py.lower "Num PEAKS: 5" = "num peaks: 5".
Proof. reflexivity. Qed.

Example str_of_int_ex :
  Py.str_of_int 12 = "12" /\ Py.str_of_int 0 = "0" /\ Py.str_of_int (-3) = "-3".
Proof. repeat split; reflexivity. Qed.

(** The end-to-end example of the specification: the two lines go before
    [Num Peaks: 2], the method is the primary one and the bucket is
    primary-only. *)
Example ethanol_run :
  match_pubchem_data series_lines ethanol_table ethanol_record =
  Reported (mkStats 1 1 0 1 1 0 0 0 [Scalar (CInt 12)] [Scalar (CInt 3)])
           [line "Name: Ethanol"; line "InChIKey: ABCDEFGHIJKLMN";
            line "PubMed_Count: 12"; line "Patent_Count: 3";
            line "Num Peaks: 2"; line "1 2"; line "3 4"; line ""]
           (1 / 1 * 100)%Q.
Proof. reflexivity. Qed.

(** ** Facts about the [str] methods *)

Lemma startswith_iff (s p : string) :
  Py.startswith s p = true <-> exists rest, s = (p ++ rest)%string.
Proof.
  unfold Py.startswith. revert p.
  induction s as [|b s IH]; intros [|a p]; simpl.
  - split; [exists EmptyString; reflexivity | reflexivity].
  - split; [discriminate | intros [r Hr]; discriminate].
  - split; [intros _; exists (String b s); reflexivity | reflexivity].
  - destruct (ascii_dec a b) as [->|Hab].
    + rewrite IH. split; intros [r Hr]; exists r.
      * now rewrite Hr.
      * now injection Hr.
    + split; [discriminate | intros [r Hr]; injection Hr; congruence].
Qed.

Lemma startswith_empty (s : string) : Py.startswith s "" = true.
Proof. now destruct s. Qed.

Lemma isspace_lower_char (c : ascii) :
  Py.isspace (Py.lower_char c) = Py.isspace c.
Proof.
  destruct c as [[] [] [] [] [] [] [] []]; vm_compute; reflexivity.
Qed.

Lemma rstrip_cons_nonspace (c : ascii) (r : string) :
  Py.isspace c = false -> Py.rstrip (String c r) = String c (Py.rstrip r).
Proof.
  intros Hc. simpl. rewrite Hc. now destruct (Py.rstrip r).
Qed.

Lemma rstrip_cons_nonempty (c c' : ascii) (r r' : string) :
  Py.rstrip r = String c' r' -> Py.rstrip (String c r) = String c (Py.rstrip r).
Proof.
  intros Hr. simpl. now rewrite Hr.
Qed.

(** A line the code takes for an anchor is one for the specification
    too: such a line starts with a letter, so trimming keeps its first
    nine characters. *)
Lemma is_anchor_spec_anchor (l : string) :
  is_anchor l = true -> spec_anchor l = true.
Proof.
  unfold is_anchor, spec_anchor. intros H.
  apply startswith_iff in H. destruct H as [rest H].
  destruct l as [|c1 [|c2 [|c3 [|c4 [|c5 [|c6 [|c7 [|c8 [|c9 l]]]]]]]]];
    simpl in H; try discriminate.
  injection H as H1 H2 H3 H4 H5 H6 H7 H8 H9 Hl.
  assert (S1 : Py.isspace c1 = false)
    by (rewrite <- isspace_lower_char, H1; reflexivity).
  assert (S9 : Py.isspace c9 = false)
    by (rewrite <- isspace_lower_char, H9; reflexivity).
  unfold Py.strip. cbn [Py.lstrip]. rewrite S1.
  assert (R : Py.rstrip (String c9 l) = String c9 (Py.rstrip l))
    by now apply rstrip_cons_nonspace.
  pose proof (rstrip_cons_nonempty c8 _ _ _ R) as R8. rewrite R in R8.
  pose proof (rstrip_cons_nonempty c7 _ _ _ R8) as R7. rewrite R8 in R7.
  pose proof (rstrip_cons_nonempty c6 _ _ _ R7) as R6. rewrite R7 in R6.
  pose proof (rstrip_cons_nonempty c5 _ _ _ R6) as R5. rewrite R6 in R5.
  pose proof (rstrip_cons_nonempty c4 _ _ _ R5) as R4. rewrite R5 in R4.
  pose proof (rstrip_cons_nonempty c3 _ _ _ R4) as R3. rewrite R4 in R3.
  pose proof (rstrip_cons_nonempty c2 _ _ _ R3) as R2. rewrite R3 in R2.
  pose proof (rstrip_cons_nonempty c1 _ _ _ R2) as R1. rewrite R2 in R1.
  apply startswith_iff.
  exists (Py.lower (Py.rstrip l)).
  rewrite R1. simpl. now rewrite H1, H2, H3, H4, H5, H6, H7, H8, H9.
Qed.

(** ** The record stream reader *)

Lemma read_header_other (l : string) (ids : option string * option string) :
  Py.startswith l "Inchikey:" = false ->
  Py.startswith l "InChIKey:" = false ->
  Py.startswith l "Smiles:" = false ->
  read_header l ids = inr ids.
Proof.
  intros H1 H2 H3. unfold read_header. now rewrite H1, H2, H3.
Qed.

(** C1 (as the code has it).  The reader recognizes the identifier
    headers on the line as read, neither trimmed nor case-folded: a line
    that starts with [Inchikey:] or [InChIKey:] sets the primary
    identifier, a line that starts with [Smiles:] sets the secondary one,
    in both cases to the text after the first colon, trimmed, the other
    identifier being kept; every other line leaves both as they are. *)
Theorem read_header_exact (l : string) (ids : option string * option string) :
  (forall rest,
      l = ("Inchikey:" ++ rest)%string \/ l = ("InChIKey:" ++ rest)%string ->
      read_header l ids = inr (Some (Py.strip rest), snd ids))
  /\ (forall rest,
         l = ("Smiles:" ++ rest)%string ->
         read_header l ids = inr (fst ids, Some (Py.strip rest)))
  /\ ((forall rest, l <> ("Inchikey:" ++ rest)%string) ->
      (forall rest, l <> ("InChIKey:" ++ rest)%string) ->
      (forall rest, l <> ("Smiles:" ++ rest)%string) ->
      read_header l ids = inr ids).
Proof.
  split; [|split].
  - intros rest [-> | ->]; unfold read_header; simpl;
      now rewrite startswith_empty.
  - intros rest ->; unfold read_header; simpl; now rewrite startswith_empty.
  - intros H1 H2 H3.
    apply read_header_other;
      match goal with
      | |- Py.startswith l ?p = false =>
          destruct (Py.startswith l p) eqn:E; [|reflexivity];
          apply startswith_iff in E; destruct E as [r Hr]
      end; [now elim (H1 r) | now elim (H2 r) | now elim (H3 r)].
Qed.

Lemma read_header_exact_witness :
  read_header (line "InChIKey: ABCDEFGHIJKLMN") (None, Some "CCO")
  = inr (Some "ABCDEFGHIJKLMN", Some "CCO").
Proof.
  exact (proj1 (read_header_exact (line "InChIKey: ABCDEFGHIJKLMN") (None, Some "CCO"))
               (line " ABCDEFGHIJKLMN") (or_intror eq_refl)).
Defined.

(** C1 (as stated) fails: the trimmed form of [INCHIKEY: ABCDEFGHIJKLMN]
    starts, case-insensitively, with [inchikey:] and the trimmed text
    after its first colon is [ABCDEFGHIJKLMN], yet the primary identifier
    stays unset. *)
Lemma capital_header_not_read :
  spec_inchikey_header capital_header = true
  /\ (v <- Py.item (Py.split_colon capital_header) 1 ;; ret (Py.strip v))
     = inr "ABCDEFGHIJKLMN"
  /\ read_header capital_header (None, None) = inr (None, None).
Proof. repeat split. Qed.

(** ** Facts about the table *)

Lemma is_str_iff (key : string) (c : cell) :
  is_str key c = true <-> c = CStr key.
Proof.
  destruct c as [s|z]; simpl.
  - rewrite String.eqb_eq. split; congruence.
  - split; discriminate.
Qed.

Lemma position_In (name : string) (cols : list string) :
  In name cols -> exists i, position name cols = Some i.
Proof.
  induction cols as [|c cols IH]; simpl; [tauto|].
  intros H. destruct (String.eqb c name) eqn:E; [now exists 0|].
  destruct H as [H|H]; [apply String.eqb_neq in E; congruence|].
  destruct (IH H) as [i ->]. now exists (S i).
Qed.

Lemma position_not_In (name : string) (cols : list string) :
  ~ In name cols -> position name cols = None.
Proof.
  induction cols as [|c cols IH]; simpl; [reflexivity|].
  intros H. destruct (String.eqb c name) eqn:E.
  - apply String.eqb_eq in E. tauto.
  - rewrite IH; [reflexivity | tauto].
Qed.

Lemma index_contains_iff (fr : Indexed) (key : string) :
  index_contains fr key = true
  <-> exists r, In r (irows fr) /\ fst r = CStr key.
Proof.
  unfold index_contains. rewrite existsb_exists.
  split; intros [r [Hin Hr]]; exists r; split; auto; now apply is_str_iff.
Qed.

Lemma loc_found (fr : Indexed) (key : string) :
  index_contains fr key = true -> exists row, loc fr key = inr row.
Proof.
  intros H. apply existsb_exists in H. destruct H as [r [Hin Hr]].
  unfold loc.
  destruct (filter (fun r => is_str key (fst r)) (irows fr)) as [|a [|b l]] eqn:E;
    eauto.
  assert (Hf : In r []) by (rewrite <- E; apply filter_In; auto).
  destruct Hf.
Qed.

Lemma select_map {A} (f : A -> bool) (rows : list A) :
  select rows (map f rows) = filter f rows.
Proof.
  induction rows as [|r rows IH]; simpl; [reflexivity|].
  now rewrite IH.
Qed.

Lemma filter_head {A} (f : A -> bool) (l : list A) (r : A) (rest : list A) :
  filter f l = r :: rest ->
  exists pre post,
    l = pre ++ r :: post /\ f r = true /\ forall x, In x pre -> f x = false.
Proof.
  induction l as [|a l IH]; simpl; [discriminate|].
  destruct (f a) eqn:E.
  - intros H. injection H as -> _.
    exists [], l. repeat split; auto. intros x [].
  - intros H. destruct (IH H) as [pre [post [-> [Hr Hpre]]]].
    exists (a :: pre), post. repeat split; auto.
    intros x [<-|Hx]; auto.
Qed.

Lemma filter_nil {A} (f : A -> bool) (l : list A) :
  filter f l = [] <-> forall x, In x l -> f x = false.
Proof.
  induction l as [|a l IH]; simpl.
  - split; [intros _ x [] | reflexivity].
  - destruct (f a) eqn:E.
    + split; [discriminate|]. intros H. rewrite (H a) in E; [discriminate|auto].
    + rewrite IH. split; intros H x; [intros [<-|Hx]; auto | auto].
Qed.

(** ** The matcher *)

(** C2.  Matching follows a strict priority.  When the primary
    identifier is not empty and indexes a row, the method is the primary
    one.  Otherwise, when the secondary identifier is not empty and some
    row holds it, the method is the secondary one and the row taken is the
    first such row of the table; this covers the record with both
    identifiers whose primary identifier is not in the index.  Otherwise
    there is no match. *)
Theorem matching_priority (fr : Indexed) (ik sm : option string) :
  In "SMILES" (icolumns fr) ->
  (primary_found fr ik ->
   exists row, find_row fr ik sm = inr (Some row, ByInchikey))
  /\ (~ primary_found fr ik -> secondary_found fr sm ->
      exists r, first_with_smiles fr (str_of sm) r
                /\ find_row fr ik sm
                   = inr (Some (Series (icolumns fr) (snd r)), BySmiles))
  /\ (~ primary_found fr ik -> ~ secondary_found fr sm ->
      find_row fr ik sm = inr (None, Unmatched)).
Proof.
  intros Hcol. destruct (position_In _ _ Hcol) as [i Hi].
  assert (Hp : Py.truthy ik && index_contains fr (str_of ik) = true
               <-> primary_found fr ik).
  { unfold primary_found. rewrite andb_true_iff, index_contains_iff. tauto. }
  assert (Hfield : forall (r : cell * list cell) key,
             is_str key (nth i (snd r) missing) = true
             <-> field (icolumns fr) "SMILES" (snd r) = Some (CStr key)).
  { intros r key. unfold field. rewrite Hi. simpl. rewrite is_str_iff.
    split; congruence. }
  assert (Hscan : forall key,
             masked fr (map (is_str key)
                            (map (fun r : cell * list cell => nth i (snd r) missing)
                                 (irows fr)))
             = mkIndexed (icolumns fr)
                 (filter (fun r => is_str key (nth i (snd r) missing)) (irows fr))).
  { intros key. unfold masked. now rewrite map_map, select_map. }
  split; [|split].
  - intros H. apply Hp in H. unfold find_row. rewrite H.
    apply andb_true_iff in H. destruct H as [_ H].
    destruct (loc_found _ _ H) as [row ->]. now exists row.
  - intros Hn [Ht [r [Hin Hr]]]. unfold find_row.
    destruct (Py.truthy ik && index_contains fr (str_of ik)) eqn:E;
      [now elim Hn; apply Hp|].
    rewrite Ht. unfold column. rewrite Hi. simpl. rewrite Hscan.
    destruct (filter _ (irows fr)) as [|r0 rest] eqn:F.
    + rewrite filter_nil in F. apply Hfield in Hr.
      rewrite (F r Hin) in Hr. discriminate.
    + simpl. exists r0. split; [|reflexivity].
      destruct (filter_head _ _ _ _ F) as [pre [post [Hrows [Hr0 Hpre]]]].
      exists pre, post. repeat split; auto.
      * now apply Hfield.
      * intros r' Hr' Hc. apply Hfield in Hc. rewrite (Hpre r' Hr') in Hc.
        discriminate.
  - intros Hn Hs. unfold find_row.
    destruct (Py.truthy ik && index_contains fr (str_of ik)) eqn:E;
      [now elim Hn; apply Hp|].
    destruct (Py.truthy sm) eqn:Ht; [|reflexivity].
    unfold column. rewrite Hi. simpl. rewrite Hscan.
    destruct (filter _ (irows fr)) as [|r0 rest] eqn:F; [reflexivity|].
    elim Hs. split; [exact Ht|].
    destruct (filter_head _ _ _ _ F) as [pre [post [Hrows [Hr0 Hpre]]]].
    exists r0. split; [rewrite Hrows; apply in_elt | now apply Hfield].
Qed.

Lemma matching_priority_witness :
  exists r,
    first_with_smiles ethanol_index "CCO" r
    /\ find_row ethanol_index (Some "XXXXXXXXXXXXXX") (Some "CCO")
       = inr (Some (Series (icolumns ethanol_index) (snd r)), BySmiles).
Proof.
  assert (Hcol : In "SMILES" (icolumns ethanol_index)) by (simpl; auto).
  apply (proj1 (proj2 (matching_priority ethanol_index
                         (Some "XXXXXXXXXXXXXX") (Some "CCO") Hcol))).
  - intros [_ [r [[<-|[]] Hr]]]. discriminate Hr.
  - split; [reflexivity|].
    exists (CStr "ABCDEFGHIJKLMN", [CStr "CCO"; CInt 12; CInt 3]).
    split; [simpl; auto | reflexivity].
Defined.

(** ** The block annotator *)

Lemma find_anchor_first (pre : list string) (a : string) (post : list string) :
  (forall l, In l pre -> is_anchor l = false) ->
  is_anchor a = true ->
  find_anchor (pre ++ a :: post) = Some (length pre).
Proof.
  intros Hpre Ha. induction pre as [|l pre IH]; simpl.
  - now rewrite Ha.
  - rewrite (Hpre l) by (simpl; auto).
    rewrite IH; [reflexivity|]. intros l' Hl'. apply Hpre. simpl; auto.
Qed.

Lemma find_anchor_none (block : list string) :
  (forall l, In l block -> is_anchor l = false) ->
  find_anchor block = None.
Proof.
  induction block as [|l block IH]; simpl; [reflexivity|].
  intros H. rewrite (H l) by auto. rewrite IH; auto.
Qed.

Lemma insert_after {A} (pre : list A) (x : A) (l : list A) :
  Py.insert (length pre) x (pre ++ l) = pre ++ x :: l.
Proof.
  unfold Py.insert.
  rewrite firstn_app, firstn_all, Nat.sub_diag, firstn_O, app_nil_r.
  rewrite skipn_app, skipn_all, Nat.sub_diag. reflexivity.
Qed.

Lemma insert_after_next {A} (pre : list A) (x y : A) (l : list A) :
  Py.insert (length pre + 1) y (pre ++ x :: l) = pre ++ x :: y :: l.
Proof.
  replace (pre ++ x :: l) with ((pre ++ [x]) ++ l)
    by (rewrite <- app_assoc; reflexivity).
  replace (length pre + 1) with (length (pre ++ [x]))
    by (rewrite length_app; reflexivity).
  rewrite insert_after, <- app_assoc. reflexivity.
Qed.

Lemma insert_counts_first (series_str : render) (row : Selection) (pm pt : Value) (pre : list string) (a : string)
  (post : list string) :
  getitem row "PubMed_Count" = inr pm ->
  getitem row "Patent_Count" = inr pt ->
  (forall l, In l pre -> is_anchor l = false) ->
  is_anchor a = true ->
  insert_counts series_str row (pre ++ a :: post)
  = inr (pre ++ ("PubMed_Count: " ++ format_value series_str pm ++ Py.LF)%string
             :: ("Patent_Count: " ++ format_value series_str pt ++ Py.LF)%string
             :: a :: post).
Proof.
  intros Hpm Hpt Hpre Ha. unfold insert_counts.
  rewrite (find_anchor_first pre a post Hpre Ha), Hpm, Hpt. simpl.
  now rewrite insert_after, insert_after_next.
Qed.




(** ** Closing a record *)

Lemma getitem_total (row : Selection) (name : string) :
  In name (selection_columns row) -> exists v, getitem row name = inr v.
Proof.
  intros H. destruct (position_In _ _ H) as [i Hi].
  destruct row as [cols cells|fr]; simpl in *.
  - rewrite Hi. eauto.
  - unfold column. rewrite Hi. simpl. eauto.
Qed.

Lemma loc_columns (fr : Indexed) (key : string) (row : Selection) :
  loc fr key = inr row -> selection_columns row = icolumns fr.
Proof.
  unfold loc.
  destruct (filter _ (irows fr)) as [|a [|b l]]; intros H;
    try discriminate; injection H as <-; reflexivity.
Qed.

(** The row found, if any, has the columns of the table, and was found
    by one of the two methods. *)
Lemma find_row_some (fr : Indexed) (ik sm : option string)
  (row : Selection) (m : Method) :
  find_row fr ik sm = inr (Some row, m) ->
  selection_columns row = icolumns fr /\ m <> Unmatched.
Proof.
  unfold find_row.
  destruct (Py.truthy ik && index_contains fr (str_of ik)).
  - destruct (loc fr (str_of ik)) as [e|r] eqn:E; simpl; [discriminate|].
    intros H. injection H as -> <-. split; [|discriminate].
    eapply loc_columns; eauto.
  - destruct (Py.truthy sm); [|discriminate].
    destruct (column fr "SMILES") as [e|col]; simpl; [discriminate|].
    destruct (select (irows fr) (map (is_str (str_of sm)) col)) as [|r rs] eqn:E;
      unfold masked, empty, iloc0; simpl; rewrite E; simpl; [discriminate|].
    intros H. injection H as <- <-. split; [reflexivity | discriminate].
Qed.

Lemma find_row_none (fr : Indexed) (ik sm : option string) (m : Method) :
  find_row fr ik sm = inr (None, m) -> m = Unmatched.
Proof.
  unfold find_row.
  destruct (Py.truthy ik && index_contains fr (str_of ik)).
  - destruct (loc fr (str_of ik)); simpl; discriminate.
  - destruct (Py.truthy sm); [|intros [= <-]; reflexivity].
    destruct (column fr "SMILES") as [e|col]; simpl; [discriminate|].
    destruct (negb (empty _)); [|intros [= <-]; reflexivity].
    destruct (iloc0 _); simpl; discriminate.
Qed.

Lemma find_row_total (fr : Indexed) (ik sm : option string) :
  In "SMILES" (icolumns fr) -> exists r, find_row fr ik sm = inr r.
Proof.
  intros Hcol. unfold find_row.
  destruct (Py.truthy ik && index_contains fr (str_of ik)) eqn:E.
  - apply andb_true_iff in E. destruct E as [_ E].
    destruct (loc_found _ _ E) as [row ->]. simpl. eauto.
  - destruct (Py.truthy sm); [|eauto].
    destruct (position_In _ _ Hcol) as [i Hi].
    unfold column. rewrite Hi. simpl.
    unfold masked, empty, iloc0. simpl.
    destruct (select (irows fr) _); simpl; eauto.
Qed.

Lemma read_header_total (l : string) (ids : option string * option string) :
  exists ids', read_header l ids = inr ids'.
Proof.
  unfold read_header.
  destruct (Py.startswith l "Inchikey:") eqn:E1.
  { apply startswith_iff in E1. destruct E1 as [r ->]. simpl. eauto. }
  destruct (Py.startswith l "InChIKey:") eqn:E2.
  { apply startswith_iff in E2. destruct E2 as [r ->]. simpl. eauto. }
  destruct (Py.startswith l "Smiles:") eqn:E3.
  { apply startswith_iff in E3. destruct E3 as [r ->]. simpl. eauto. }
  simpl. eauto.
Qed.

(** A header line is not blank, so the line that closes a record leaves
    the identifiers as they are. *)
Lemma read_header_blank (l : string) (ids : option string * option string) :
  blank l = true -> read_header l ids = inr ids.
Proof.
  unfold blank. intros Hb. apply String.eqb_eq in Hb.
  assert (Hn : forall p, (exists c p', p = String c p' /\ Py.isspace c = false) ->
                         Py.startswith l p = false).
  { intros p [c [p' [-> Hc]]].
    destruct (Py.startswith l (String c p')) eqn:E; [|reflexivity].
    apply startswith_iff in E. destruct E as [rest ->].
    unfold Py.strip in Hb. simpl in Hb. rewrite Hc in Hb.
    rewrite rstrip_cons_nonspace in Hb by assumption. discriminate. }
  apply read_header_other; apply Hn; eexists; eexists; split; reflexivity.
Qed.

Lemma insert_counts_total (series_str : render) (row : Selection) (pm pt : Value) (block : list string) :
  getitem row "PubMed_Count" = inr pm ->
  getitem row "Patent_Count" = inr pt ->
  exists block', insert_counts series_str row block = inr block'.
Proof.
  intros Hpm Hpt. unfold insert_counts.
  destruct (find_anchor block); rewrite ?Hpm, ?Hpt; simpl; eauto.
Qed.

Lemma insert_counts_unanchored
  (series_str : render)
  (row : Selection) (block : list string) :
  (forall l, In l block -> spec_anchor l = false) ->
  insert_counts series_str row block = inr block.
Proof.
  intros H. unfold insert_counts. rewrite find_anchor_none; [reflexivity|].
  intros l Hl. specialize (H l Hl).
  destruct (is_anchor l) eqn:E; [|reflexivity].
  apply is_anchor_spec_anchor in E. congruence.
Qed.

(** What closing a matched record does, given the two cells read from
    the row and the block the annotator returns. *)
Lemma close_record_matched
  (series_str : render)
  (fr : Indexed) (s : Loop) (row : Selection) (m : Method) (pm pt : Value)
  (block' : list string) :
  find_row fr (inchi_key s) (smiles s) = inr (Some row, m) ->
  getitem row "PubMed_Count" = inr pm ->
  getitem row "Patent_Count" = inr pt ->
  insert_counts series_str row (spectrum_block s) = inr block' ->
  close_record series_str fr s
  = inr (mkLoop
           (append_patent pt
              (append_pubmed pm
                 (incr Total_matched
                    (count_method m
                       (count_presence (inchi_key s) (smiles s)
                          (incr Total_spectra (stats s)))))))
           (fo s ++ block') [] None None).
Proof.
  intros Hf Hpm Hpt Hins. unfold close_record. rewrite Hf. simpl.
  unfold annotate. rewrite Hpm, Hpt. simpl. rewrite Hins. reflexivity.
Qed.

Lemma close_record_unmatched
  (series_str : render)
  (fr : Indexed) (s : Loop) (m : Method) :
  find_row fr (inchi_key s) (smiles s) = inr (None, m) ->
  close_record series_str fr s
  = inr (mkLoop (count_presence (inchi_key s) (smiles s)
                   (incr Total_spectra (stats s)))
                (fo s ++ spectrum_block s) [] None None).
Proof.
  intros Hf. unfold close_record. rewrite Hf. simpl.
  now rewrite (find_row_none _ _ _ _ Hf).
Qed.

Lemma close_record_total
  (series_str : render)
  (fr : Indexed) (s : Loop) :
  has_columns fr -> exists s', close_record series_str fr s = inr s'.
Proof.
  intros [Hs [Hpm Hpt]].
  destruct (find_row_total fr (inchi_key s) (smiles s) Hs) as [[[row|] m] Hf].
  - destruct (find_row_some _ _ _ _ _ Hf) as [Hc _].
    rewrite <- Hc in Hpm, Hpt.
    destruct (getitem_total _ _ Hpm) as [pm Epm].
    destruct (getitem_total _ _ Hpt) as [pt Ept].
    destruct (insert_counts_total series_str row pm pt (spectrum_block s) Epm Ept)
      as [block' Hb].
    rewrite (close_record_matched series_str fr s row m pm pt block' Hf Epm Ept Hb).
    eauto.
  - rewrite (close_record_unmatched series_str fr s m Hf). eauto.
Qed.

(** Closing a record counts it once, in the total and in the bucket of
    its identifiers. *)
Lemma close_record_counts
  (series_str : render)
  (fr : Indexed) (s s' : Loop) :
  close_record series_str fr s = inr s' ->
  total_spectra (stats s') = S (total_spectra (stats s))
  /\ forall b,
       bucket_count b (stats s')
       = bucket_count b (stats s)
         + (if Bucket_eqb b (spec_bucket (inchi_key s) (smiles s)) then 1 else 0).
Proof.
  unfold close_record.
  destruct (find_row fr (inchi_key s) (smiles s)) as [e|[row m]];
    simpl; [discriminate|].
  assert (Hcount : forall st0 st1,
             st1 = count_method m
                     (count_presence (inchi_key s) (smiles s)
                        (incr Total_spectra st0)) ->
             total_spectra st1 = S (total_spectra st0)
             /\ forall b,
                  bucket_count b st1
                  = bucket_count b st0
                    + (if Bucket_eqb b (spec_bucket (inchi_key s) (smiles s))
                       then 1 else 0)).
  { intros st0 st1 ->. unfold count_presence, spec_bucket.
    destruct st0, m, (Py.truthy (inchi_key s)), (Py.truthy (smiles s)); simpl;
      (split; [reflexivity | intros []; simpl; lia]). }
  destruct (Hcount (stats s) _ eq_refl) as [Ht Hb].
  destruct row as [row|].
  - unfold annotate.
    destruct (getitem row "PubMed_Count") as [e|pm]; simpl; [discriminate|].
    destruct (getitem row "Patent_Count") as [e|pt]; simpl; [discriminate|].
    destruct (insert_counts series_str row (spectrum_block s)) as [e|block'];
      simpl; [discriminate|].
    intros [= <-]. simpl.
    destruct (count_method m _) eqn:E. simpl in *.
    split; [exact Ht | exact Hb].
  - simpl. intros [= <-]. simpl. split; [exact Ht | exact Hb].
Qed.

(** ** The loop *)

Lemma loop_body_blank
  (series_str : render)
  (fr : Indexed) (s : Loop) (l : string) :
  blank l = true ->
  loop_body series_str fr s l
  = close_record series_str fr
      (mkLoop (stats s) (fo s) (spectrum_block s ++ [l]) (inchi_key s) (smiles s)).
Proof.
  intros Hb. unfold loop_body. rewrite (read_header_blank l _ Hb). simpl.
  unfold blank in Hb. now rewrite Hb.
Qed.

Lemma loop_body_nonblank
  (series_str : render)
  (fr : Indexed) (s : Loop) (l : string) :
  blank l = false ->
  exists ik sm,
    loop_body series_str fr s l
    = inr (mkLoop (stats s) (fo s) (spectrum_block s ++ [l]) ik sm).
Proof.
  intros Hb. unfold loop_body.
  destruct (read_header_total l (inchi_key s, smiles s)) as [[ik sm] ->].
  simpl. unfold blank in Hb. rewrite Hb. eauto.
Qed.

Lemma read_loop_app
  (series_str : render)
  (fr : Indexed) (fi1 fi2 : list string) (s : Loop) :
  read_loop series_str fr s (fi1 ++ fi2)
  = match read_loop series_str fr s fi1 with
    | inl e => inl e
    | inr s' => read_loop series_str fr s' fi2
    end.
Proof.
  revert s. induction fi1 as [|l fi1 IH]; intros s; simpl; [reflexivity|].
  destruct (loop_body series_str fr s l); [reflexivity | apply IH].
Qed.

(** Lines that do not close a record change neither the statistics nor
    the output. *)
Lemma read_loop_unterminated
  (series_str : render)
  (fr : Indexed) (tail : list string) (s : Loop) :
  (forall l, In l tail -> blank l = false) ->
  exists s', read_loop series_str fr s tail = inr s'
             /\ stats s' = stats s /\ fo s' = fo s.
Proof.
  revert s. induction tail as [|l tail IH]; intros s H; simpl; [eauto|].
  destruct (loop_body_nonblank series_str fr s l) as [ik [sm ->]];
    [apply H; simpl; auto|].
  destruct (IH (mkLoop (stats s) (fo s) (spectrum_block s ++ [l]) ik sm))
    as [s' [Hs' [Hst Hfo]]]; [intros l' Hl'; apply H; simpl; auto|].
  exists s'. auto.
Qed.

Lemma read_loop_counts
  (series_str : render)
  (fr : Indexed) (fi : list string) (s : Loop) :
  has_columns fr ->
  exists s', read_loop series_str fr s fi = inr s'
             /\ total_spectra (stats s') = total_spectra (stats s) + records fi
             /\ bucket_sum (stats s') = bucket_sum (stats s) + records fi.
Proof.
  intros Hc. revert s. induction fi as [|l fi IH]; intros s; simpl.
  - exists s. unfold records. simpl. repeat split; lia.
  - unfold records in *. simpl. destruct (blank l) eqn:Hb.
    + rewrite (loop_body_blank series_str fr s l Hb).
      destruct (close_record_total series_str fr
                  (mkLoop (stats s) (fo s) (spectrum_block s ++ [l])
                          (inchi_key s) (smiles s)) Hc) as [s1 H1].
      rewrite H1. destruct (close_record_counts _ _ _ _ H1) as [Ht Hbk].
      simpl in Ht, Hbk.
      destruct (IH s1) as [s' [Hs' [Ht' Hsum]]]. exists s'.
      split; [exact Hs'|]. simpl. split; [lia|].
      rewrite Hsum. unfold bucket_sum.
      pose proof (Hbk Both) as B1. pose proof (Hbk PrimaryOnly) as B2.
      pose proof (Hbk SecondaryOnly) as B3. pose proof (Hbk Neither) as B4.
      simpl in B1, B2, B3, B4.
      destruct (spec_bucket (inchi_key s) (smiles s)); simpl in *; lia.
    + destruct (loop_body_nonblank series_str fr s l Hb) as [ik [sm ->]].
      destruct (IH (mkLoop (stats s) (fo s) (spectrum_block s ++ [l]) ik sm))
        as [s' [Hs' [Ht' Hsum]]].
      exists s'. simpl in *. auto.
Qed.

(** C6.  Closing a record increments exactly one of the four
    identifier-presence buckets, the one of its two identifiers with
    "both" first, and once the input is exhausted the total of records is
    the number of blank lines read and the four buckets add up to it. *)
Theorem presence_buckets
  (series_str : render) (fr : Indexed) :
  (forall s s',
      close_record series_str fr s = inr s' ->
      forall b,
        bucket_count b (stats s')
        = bucket_count b (stats s)
          + (if Bucket_eqb b (spec_bucket (inchi_key s) (smiles s)) then 1 else 0))
  /\ (forall fi,
         has_columns fr ->
         exists s',
           read_loop series_str fr loop0 fi = inr s'
           /\ total_spectra (stats s') = records fi
           /\ spectra_with_both (stats s') + spectra_with_inchikey (stats s')
              + spectra_with_smiles (stats s') + spectra_with_neither (stats s')
              = total_spectra (stats s')).
Proof.
  split.
  - intros s s' H. apply (close_record_counts _ _ _ _ H).
  - intros fi Hc.
    destruct (read_loop_counts series_str fr fi loop0 Hc) as [s' [Hs' [Ht Hb]]].
    exists s'. split; [exact Hs'|]. simpl in Ht, Hb.
    unfold bucket_sum in Hb. simpl in Hb. split; lia.
Qed.

Lemma presence_buckets_witness :
  exists s',
    read_loop series_lines ethanol_index loop0 (ethanol_record ++ two_records)
    = inr s'
    /\ total_spectra (stats s') = 3
    /\ spectra_with_both (stats s') + spectra_with_inchikey (stats s')
       + spectra_with_smiles (stats s') + spectra_with_neither (stats s')
       = total_spectra (stats s').
Proof.
  apply (proj2 (presence_buckets series_lines ethanol_index)
               (ethanol_record ++ two_records)).
  repeat split; simpl; auto.
Defined.

(** C8.  Lines after the last blank line are dropped: an input that goes
    on, after [fi], with lines none of which is blank gives the outcome
    of [fi] itself, the same output and the same statistics. *)
Theorem unterminated_block_dropped
  (series_str : render)
  (pubchem_df : DataFrame) (fi tail : list string) :
  (forall l, In l tail -> Py.strip l <> "") ->
  match_pubchem_data series_str pubchem_df (fi ++ tail)
  = match_pubchem_data series_str pubchem_df fi.
Proof.
  intros H. unfold match_pubchem_data.
  destruct (set_index "FirstBlock" pubchem_df) as [e|fr]; [reflexivity|].
  rewrite read_loop_app.
  destruct (read_loop series_str fr loop0 fi) as [[e w]|s]; [reflexivity|].
  destruct (read_loop_unterminated series_str fr tail s) as [s' [-> [-> ->]]];
    [|reflexivity].
  intros l Hl. unfold blank. apply String.eqb_neq. now apply H.
Qed.

Lemma unterminated_block_dropped_witness :
  match_pubchem_data series_lines ethanol_table
    (ethanol_record ++ [line "Name: Methanol"; line "Smiles: CO"; line "Num Peaks: 1"])
  = match_pubchem_data series_lines ethanol_table ethanol_record.
Proof.
  apply (unterminated_block_dropped series_lines ethanol_table ethanol_record).
  intros l [<-|[<-|[<-|[]]]]; discriminate.
Defined.

(** ** Matched records without an anchor line *)

(** C9.  A matched record none of whose lines starts, once trimmed and
    case-folded, with [num peaks] is written to the output as it was
    read: its lines, in their order, and nothing else. *)
Theorem unanchored_match_unmodified
  (series_str : render)
  (fr : Indexed) (s : Loop) (row : Selection) (m : Method) (pm pt : Value) :
  find_row fr (inchi_key s) (smiles s) = inr (Some row, m) ->
  getitem row "PubMed_Count" = inr pm ->
  getitem row "Patent_Count" = inr pt ->
  (forall l, In l (spectrum_block s) -> spec_anchor l = false) ->
  exists st',
    close_record series_str fr s
    = inr (mkLoop st' (fo s ++ spectrum_block s) [] None None).
Proof.
  intros Hf Hpm Hpt Hno.
  rewrite (close_record_matched series_str fr s row m pm pt (spectrum_block s)
             Hf Hpm Hpt (insert_counts_unanchored series_str row _ Hno)).
  eauto.
Qed.

Lemma unanchored_match_unmodified_witness :
  exists st',
    close_record series_lines ethanol_index
      (mkLoop stats0 [] [line "Name: Ethanol"; line "Smiles: CCO"; line ""]
              None (Some "CCO"))
    = inr (mkLoop st' [line "Name: Ethanol"; line "Smiles: CCO"; line ""]
                  [] None None).
Proof.
  apply (unanchored_match_unmodified series_lines ethanol_index
           (mkLoop stats0 [] [line "Name: Ethanol"; line "Smiles: CCO"; line ""]
                   None (Some "CCO"))
           ethanol_row BySmiles (Scalar (CInt 12)) (Scalar (CInt 3))
           eq_refl eq_refl eq_refl).
  intros l [<-|[<-|[<-|[]]]]; reflexivity.
Defined.



(** ** The table and the report *)

(** C7 (as the code has it).  Only the column of the primary identifier
    is looked for when the index is built: without it the run fails, with
    a [KeyError], before any line of the input is read and with nothing
    written; with it the index is built, whatever other column is
    absent. *)
Theorem missing_index_column_fatal
  (series_str : render)
  (pubchem_df : DataFrame) (fi : list string) :
  (~ In "FirstBlock" (columns pubchem_df) ->
   match_pubchem_data series_str pubchem_df fi
   = Raised (KeyError "None of ['FirstBlock'] are in the columns") [])
  /\ (In "FirstBlock" (columns pubchem_df) ->
      exists fr, set_index "FirstBlock" pubchem_df = inr fr).
Proof.
  split; intros H.
  - unfold match_pubchem_data, set_index.
    now rewrite (position_not_In _ _ H).
  - unfold set_index. destruct (position_In _ _ H) as [i ->]. eauto.
Qed.

Lemma missing_index_column_fatal_witness :
  match_pubchem_data series_lines
    (mkDataFrame ["InChIKey"; "SMILES"; "PubMed_Count"; "Patent_Count"]
                 [[CStr "ABCDEFGHIJKLMN"; CStr "CCO"; CInt 12; CInt 3]])
    ethanol_record
  = Raised (KeyError "None of ['FirstBlock'] are in the columns") [].
Proof.
  apply (proj1 (missing_index_column_fatal series_lines
                  (mkDataFrame ["InChIKey"; "SMILES"; "PubMed_Count"; "Patent_Count"]
                     [[CStr "ABCDEFGHIJKLMN"; CStr "CCO"; CInt 12; CInt 3]])
                  ethanol_record)).
  simpl. intros [H|[H|[H|[H|[]]]]]; discriminate H.
Defined.

(** C7 (as stated) fails: this table has no count column, yet the index
    is built and the first record is read and written before the run
    fails on the second one; on the first record alone the run does not
    fail at all. *)
Lemma missing_count_column_fails_late :
  ~ In "PubMed_Count" (columns countless_table)
  /\ match_pubchem_data series_lines countless_table two_records
     = Raised (KeyError "PubMed_Count") [line "Name: Unknown"; line ""]
  /\ match_pubchem_data series_lines countless_table [line "Name: Unknown"; line ""]
     = Reported (mkStats 1 0 0 0 0 0 0 1 [] []) [line "Name: Unknown"; line ""]
                (0 / 1 * 100)%Q.
Proof.
  split; [|split; reflexivity].
  simpl. intros [H|[H|[]]]; discriminate H.
Qed.

(** C4 (the code at the failing input).  On an empty input the division
    of line 99 is by zero: the run ends in [ZeroDivisionError] and
    reports nothing. *)
Theorem empty_input_division_by_zero
  (series_str : render)
  (pubchem_df : DataFrame) :
  In "FirstBlock" (columns pubchem_df) ->
  match_pubchem_data series_str pubchem_df [] = Raised ZeroDivisionError [].
Proof.
  intros H. unfold match_pubchem_data, set_index.
  destruct (position_In _ _ H) as [i ->]. reflexivity.
Qed.

Lemma empty_input_division_by_zero_witness :
  match_pubchem_data series_lines ethanol_table [] = Raised ZeroDivisionError [].
Proof.
  apply (empty_input_division_by_zero series_lines ethanol_table).
  simpl. auto.
Defined.

(** C5 (the code at the failing input).  With two rows under one primary
    identifier nothing is overwritten: the index keeps both rows, the
    lookup returns the frame of both, and the loop appends the two
    columns of counts to the statistics and writes, after
    [PubMed_Count: ] and [Patent_Count: ], the text of a column of two
    cells; the later row's counts alone, 7 and 5, are not what is used. *)
Theorem duplicate_key_selects_both_rows (series_str : render) :
  let fr :=
    mkIndexed ["SMILES"; "PubMed_Count"; "Patent_Count"]
      [(CStr "ABCDEFGHIJKLMN", [CStr "CCO"; CInt 12; CInt 3]);
       (CStr "ABCDEFGHIJKLMN", [CStr "OCC"; CInt 7; CInt 5])] in
  let labels := [CStr "ABCDEFGHIJKLMN"; CStr "ABCDEFGHIJKLMN"] in
  let pubmed := Column "PubMed_Count" labels [CInt 12; CInt 7] in
  let patent := Column "Patent_Count" labels [CInt 3; CInt 5] in
  set_index "FirstBlock" duplicate_table = inr fr
  /\ loc fr "ABCDEFGHIJKLMN" = inr (Frame fr)
  /\ read_loop series_str fr loop0 ethanol_record
     = inr (mkLoop (mkStats 1 1 0 1 1 0 0 0 [pubmed] [patent])
              [line "Name: Ethanol"; line "InChIKey: ABCDEFGHIJKLMN";
               line ("PubMed_Count: "
                     ++ series_str "PubMed_Count" labels [CInt 12; CInt 7]);
               line ("Patent_Count: "
                     ++ series_str "Patent_Count" labels [CInt 3; CInt 5]);
               line "Num Peaks: 2"; line "1 2"; line "3 4"; line ""]
              [] None None).
Proof. repeat split. Qed.

(** ** Invariants of the statistics *)

(** What closing a record amounts to, read back from its result. *)
Lemma close_record_inv (series_str : render) (fr : Indexed) (s s' : Loop) :
  close_record series_str fr s = inr s' ->
  spectrum_block s' = [] /\ inchi_key s' = None /\ smiles s' = None
  /\ exists r m block',
       find_row fr (inchi_key s) (smiles s) = inr (r, m)
       /\ fo s' = fo s ++ block'
       /\ match r with
          | None =>
              m = Unmatched /\ block' = spectrum_block s
              /\ stats s' = count_presence (inchi_key s) (smiles s)
                              (incr Total_spectra (stats s))
          | Some row =>
              exists pm pt,
                m <> Unmatched
                /\ getitem row "PubMed_Count" = inr pm
                /\ getitem row "Patent_Count" = inr pt
                /\ insert_counts series_str row (spectrum_block s) = inr block'
                /\ stats s'
                   = append_patent pt
                       (append_pubmed pm
                          (incr Total_matched
                             (count_method m
                                (count_presence (inchi_key s) (smiles s)
                                   (incr Total_spectra (stats s))))))
          end.
Proof.
  intros H.
  destruct (find_row fr (inchi_key s) (smiles s)) as [e|[[row|] m]] eqn:Hf.
  - unfold close_record in H. rewrite Hf in H. discriminate.
  - destruct (find_row_some _ _ _ _ _ Hf) as [_ Hm].
    unfold close_record in H. rewrite Hf in H. simpl in H. unfold annotate in H.
    destruct (getitem row "PubMed_Count") as [e|pm] eqn:Epm; simpl in H;
      [discriminate|].
    destruct (getitem row "Patent_Count") as [e|pt] eqn:Ept; simpl in H;
      [discriminate|].
    destruct (insert_counts series_str row (spectrum_block s)) as [e|block']
      eqn:Eb; simpl in H; [discriminate|].
    injection H as <-. simpl. repeat split.
    exists (Some row), m, block'. repeat split. exists pm, pt. auto.
  - rewrite (close_record_unmatched series_str fr s m Hf) in H.
    injection H as <-. simpl. repeat split.
    exists None, m, (spectrum_block s). repeat split.
    apply (find_row_none _ _ _ _ Hf).
Qed.

(** The method by which a row was found tells which identifier was
    there. *)
Lemma find_row_method (fr : Indexed) (ik sm : option string)
  (r : option Selection) (m : Method) :
  find_row fr ik sm = inr (r, m) ->
  match m with
  | ByInchikey => Py.truthy ik = true
  | BySmiles => Py.truthy sm = true
  | Unmatched => True
  end.
Proof.
  unfold find_row.
  destruct (Py.truthy ik && index_contains fr (str_of ik)) eqn:E.
  - apply andb_true_iff in E. destruct E as [E _].
    destruct (loc fr (str_of ik)); simpl; [discriminate|].
    intros [= <- <-]. exact E.
  - destruct (Py.truthy sm) eqn:Es; [|intros [= <- <-]; exact I].
    destruct (column fr "SMILES"); simpl; [discriminate|].
    destruct (negb (empty _)); [|intros [= <- <-]; exact I].
    destruct (iloc0 _); simpl; [discriminate|].
    intros [= <- <-]. reflexivity.
Qed.

(** A property of the statistics that closing a record keeps is kept by
    the loop. *)
Lemma read_loop_stats_ind (P : Stats -> Prop) (series_str : render)
  (fr : Indexed) :
  (forall s s', P (stats s) -> close_record series_str fr s = inr s' ->
                P (stats s')) ->
  forall fi s s',
    P (stats s) -> read_loop series_str fr s fi = inr s' -> P (stats s').
Proof.
  intros Hstep. induction fi as [|l fi IH]; intros s s' HP H; simpl in H.
  - now injection H as <-.
  - destruct (loop_body series_str fr s l) as [e|s1] eqn:E; [discriminate|].
    apply (IH s1 s'); [|exact H].
    destruct (blank l) eqn:Hb.
    + rewrite (loop_body_blank series_str fr s l Hb) in E.
      eapply Hstep; [|exact E]. exact HP.
    + destruct (loop_body_nonblank series_str fr s l Hb) as [ik [sm E']].
      rewrite E' in E. injection E as <-. exact HP.
Qed.

(** X1.  At the end of the loop every match is counted once: the total
    of matches is the sum of the two method counters, it does not exceed
    the total of records, and each of the two sequences of counts has one
    item per match. *)
Theorem matched_counts_consistent (series_str : render) (fr : Indexed)
  (fi : list string) :
  has_columns fr ->
  exists s,
    read_loop series_str fr loop0 fi = inr s
    /\ total_matched (stats s)
       = matched_by_inchikey (stats s) + matched_by_smiles (stats s)
    /\ total_matched (stats s) <= total_spectra (stats s)
    /\ length (pubmed_counts (stats s)) = total_matched (stats s)
    /\ length (patent_counts (stats s)) = total_matched (stats s).
Proof.
  intros Hc.
  destruct (read_loop_counts series_str fr fi loop0 Hc) as [s [Hs _]].
  exists s. split; [exact Hs|].
  apply (read_loop_stats_ind
           (fun st =>
              total_matched st = matched_by_inchikey st + matched_by_smiles st
              /\ total_matched st <= total_spectra st
              /\ length (pubmed_counts st) = total_matched st
              /\ length (patent_counts st) = total_matched st)
           series_str fr) with (fi := fi) (s := loop0);
    [|simpl; repeat split; lia|exact Hs].
  clear. intros s s' HP H.
  destruct (close_record_inv _ _ _ _ H) as [_ [_ [_ [r [m [b [Hf [_ Hr]]]]]]]].
  unfold count_presence in Hr.
  destruct r as [row|].
  - destruct Hr as [pm [pt [Hm [_ [_ [_ ->]]]]]].
    destruct (stats s), m, (Py.truthy (inchi_key s)), (Py.truthy (smiles s));
      simpl in *; try (now elim Hm);
      rewrite !length_app; simpl; lia.
  - destruct Hr as [-> [_ ->]].
    destruct (stats s), (Py.truthy (inchi_key s)), (Py.truthy (smiles s));
      simpl in *; lia.
Qed.

Lemma matched_counts_consistent_witness :
  exists s,
    read_loop series_lines ethanol_index loop0 (ethanol_record ++ two_records)
    = inr s
    /\ total_matched (stats s)
       = matched_by_inchikey (stats s) + matched_by_smiles (stats s)
    /\ total_matched (stats s) <= total_spectra (stats s)
    /\ length (pubmed_counts (stats s)) = total_matched (stats s)
    /\ length (patent_counts (stats s)) = total_matched (stats s).
Proof.
  apply (matched_counts_consistent series_lines ethanol_index
           (ethanol_record ++ two_records)).
  repeat split; simpl; auto.
Defined.

(** X2.  A record is matched only by an identifier it bears: the matches
    by InChIKey do not exceed the records with an InChIKey (alone or with
    a SMILES), the matches by SMILES do not exceed the records with a
    SMILES, and so a record with neither is never matched. *)
Theorem methods_within_buckets (series_str : render) (fr : Indexed)
  (fi : list string) :
  has_columns fr ->
  exists s,
    read_loop series_str fr loop0 fi = inr s
    /\ matched_by_inchikey (stats s)
       <= spectra_with_inchikey (stats s) + spectra_with_both (stats s)
    /\ matched_by_smiles (stats s)
       <= spectra_with_smiles (stats s) + spectra_with_both (stats s)
    /\ total_matched (stats s) + spectra_with_neither (stats s)
       <= total_spectra (stats s).
Proof.
  intros Hc.
  destruct (read_loop_counts series_str fr fi loop0 Hc) as [s [Hs _]].
  exists s. split; [exact Hs|].
  assert (H : (matched_by_inchikey (stats s)
               <= spectra_with_inchikey (stats s) + spectra_with_both (stats s)
               /\ matched_by_smiles (stats s)
                  <= spectra_with_smiles (stats s) + spectra_with_both (stats s))
              /\ total_matched (stats s) + spectra_with_neither (stats s)
                 <= total_spectra (stats s)); [|tauto].
  apply (read_loop_stats_ind
           (fun st =>
              (matched_by_inchikey st
               <= spectra_with_inchikey st + spectra_with_both st
               /\ matched_by_smiles st
                  <= spectra_with_smiles st + spectra_with_both st)
              /\ total_matched st + spectra_with_neither st <= total_spectra st)
           series_str fr) with (fi := fi) (s := loop0);
    [|simpl; repeat split; lia|exact Hs].
  clear. intros s s' HP H.
  destruct (close_record_inv _ _ _ _ H) as [_ [_ [_ [r [m [b [Hf [_ Hr]]]]]]]].
  pose proof (find_row_method _ _ _ _ _ Hf) as Hm'.
  unfold count_presence in Hr.
  destruct r as [row|].
  - destruct Hr as [pm [pt [Hm [_ [_ [_ ->]]]]]].
    destruct (stats s), m, (Py.truthy (inchi_key s)), (Py.truthy (smiles s));
      simpl in *; try (now elim Hm); try discriminate; lia.
  - destruct Hr as [-> [_ ->]].
    destruct (stats s), (Py.truthy (inchi_key s)), (Py.truthy (smiles s));
      simpl in *; lia.
Qed.

Lemma methods_within_buckets_witness :
  exists s,
    read_loop series_lines ethanol_index loop0 (ethanol_record ++ two_records)
    = inr s
    /\ matched_by_inchikey (stats s)
       <= spectra_with_inchikey (stats s) + spectra_with_both (stats s)
    /\ matched_by_smiles (stats s)
       <= spectra_with_smiles (stats s) + spectra_with_both (stats s)
    /\ total_matched (stats s) + spectra_with_neither (stats s)
       <= total_spectra (stats s).
Proof.
  apply (methods_within_buckets series_lines ethanol_index
           (ethanol_record ++ two_records)).
  repeat split; simpl; auto.
Defined.

(** ** Exceptions of the loop *)

Lemma position_None (name : string) (cols : list string) :
  position name cols = None -> ~ In name cols.
Proof.
  intros H Hin. destruct (position_In _ _ Hin) as [i Hi]. congruence.
Qed.

Lemma position_Some (name : string) (cols : list string) (i : nat) :
  position name cols = Some i -> In name cols.
Proof.
  revert i. induction cols as [|c cols IH]; simpl; [discriminate|].
  intros i. destruct (String.eqb c name) eqn:E.
  - apply String.eqb_eq in E. auto.
  - destruct (position name cols) as [j|]; simpl; [|discriminate].
    intros _. right. apply (IH j eq_refl).
Qed.

Lemma primary_found_iff (fr : Indexed) (ik : option string) :
  Py.truthy ik && index_contains fr (str_of ik) = true <-> primary_found fr ik.
Proof.
  unfold primary_found. rewrite andb_true_iff, index_contains_iff. tauto.
Qed.

Lemma getitem_error (row : Selection) (name : string) (e : exn) :
  getitem row name = inl e ->
  e = KeyError name /\ ~ In name (selection_columns row).
Proof.
  destruct row as [cols cells|fr]; simpl.
  - destruct (position name cols) eqn:E; [discriminate|].
    intros [= <-]. split; [reflexivity | now apply position_None].
  - unfold column. destruct (position name (icolumns fr)) eqn:E;
      [discriminate|].
    simpl. intros [= <-]. split; [reflexivity | now apply position_None].
Qed.

Lemma getitem_missing (row : Selection) (name : string) :
  ~ In name (selection_columns row) -> getitem row name = inl (KeyError name).
Proof.
  intros H. apply position_not_In in H.
  destruct row as [cols cells|fr]; simpl in *.
  - now rewrite H.
  - unfold column. now rewrite H.
Qed.

Lemma find_row_error (fr : Indexed) (ik sm : option string)
  (e : exn) :
  find_row fr ik sm = inl e ->
  e = KeyError "SMILES" /\ ~ In "SMILES" (icolumns fr).
Proof.
  unfold find_row.
  destruct (Py.truthy ik && index_contains fr (str_of ik)) eqn:E.
  - apply andb_true_iff in E. destruct E as [_ E].
    destruct (loc_found _ _ E) as [row ->]. discriminate.
  - destruct (Py.truthy sm); [|discriminate].
    unfold column. destruct (position "SMILES" (icolumns fr)) as [i|] eqn:Ep.
    + simpl. unfold masked, empty, iloc0. simpl.
      destruct (select (irows fr) _); discriminate.
    + simpl. intros [= <-]. split; [reflexivity | now apply position_None].
Qed.

(** X3.  Looking a record up raises nothing but [KeyError('SMILES')],
    and raises it exactly when the table has no [SMILES] column and the
    secondary scan is reached: the record bears a SMILES and its InChIKey
    is empty or indexes no row. *)
Theorem secondary_scan_key_error (fr : Indexed) (ik sm : option string)
  (e : exn) :
  find_row fr ik sm = inl e
  <-> e = KeyError "SMILES"
      /\ ~ In "SMILES" (icolumns fr)
      /\ Py.truthy sm = true
      /\ ~ primary_found fr ik.
Proof.
  rewrite <- primary_found_iff. unfold find_row.
  destruct (Py.truthy ik && index_contains fr (str_of ik)) eqn:E.
  - apply andb_true_iff in E. destruct E as [_ E].
    destruct (loc_found _ _ E) as [row ->]. simpl.
    split; [discriminate | intros [_ [_ [_ H]]]; now elim H].
  - destruct (Py.truthy sm) eqn:Es;
      [|split; [discriminate | intros [_ [_ [H _]]]; discriminate H]].
    unfold column. destruct (position "SMILES" (icolumns fr)) as [i|] eqn:Ep.
    + simpl. unfold masked, empty, iloc0. simpl.
      destruct (select (irows fr) _); simpl;
        (split; [discriminate|]); intros [_ [H _]]; elim H;
        apply (position_Some _ _ _ Ep).
    + simpl. split.
      * intros [= <-]. repeat split; auto using position_None.
      * intros [-> _]. reflexivity.
Qed.

Lemma secondary_scan_key_error_witness :
  find_row (mkIndexed ["PubMed_Count"; "Patent_Count"]
                      [(CStr "ABCDEFGHIJKLMN", [CInt 12; CInt 3])])
           None (Some "CCO")
  = inl (KeyError "SMILES").
Proof.
  apply (proj2 (secondary_scan_key_error
                  (mkIndexed ["PubMed_Count"; "Patent_Count"]
                             [(CStr "ABCDEFGHIJKLMN", [CInt 12; CInt 3])])
                  None (Some "CCO") (KeyError "SMILES"))).
  repeat split.
  - simpl. intros [H|[H|[]]]; discriminate H.
  - intros [H _]. discriminate H.
Defined.

(** X4.  A matched record needs the two count columns whether or not it
    has an anchor line: without [PubMed_Count] closing it raises
    [KeyError('PubMed_Count')], and with it but without [Patent_Count],
    [KeyError('Patent_Count')]. *)
Theorem matched_record_needs_counts (series_str : render) (fr : Indexed)
  (s : Loop) (row : Selection) (m : Method) :
  find_row fr (inchi_key s) (smiles s) = inr (Some row, m) ->
  (~ In "PubMed_Count" (icolumns fr) ->
   close_record series_str fr s = inl (KeyError "PubMed_Count"))
  /\ (In "PubMed_Count" (icolumns fr) -> ~ In "Patent_Count" (icolumns fr) ->
      close_record series_str fr s = inl (KeyError "Patent_Count")).
Proof.
  intros Hf. destruct (find_row_some _ _ _ _ _ Hf) as [Hc _].
  unfold close_record, annotate. rewrite Hf. simpl. rewrite <- Hc. split.
  - intros H. now rewrite (getitem_missing _ _ H).
  - intros H1 H2. destruct (getitem_total _ _ H1) as [pm ->]. simpl.
    now rewrite (getitem_missing _ _ H2).
Qed.

Lemma matched_record_needs_counts_witness :
  close_record series_lines countless_index
    (mkLoop stats0 [] [line "InChIKey: ABCDEFGHIJKLMN"; line ""]
            (Some "ABCDEFGHIJKLMN") None)
  = inl (KeyError "PubMed_Count").
Proof.
  apply (proj1 (matched_record_needs_counts series_lines countless_index
                  (mkLoop stats0 [] [line "InChIKey: ABCDEFGHIJKLMN"; line ""]
                          (Some "ABCDEFGHIJKLMN") None)
                  (Series ["SMILES"] [CStr "CCO"]) ByInchikey eq_refl)).
  simpl. intros [H|[]]. discriminate H.
Defined.

Lemma close_record_error (series_str : render) (fr : Indexed) (s : Loop)
  (e : exn) :
  close_record series_str fr s = inl e ->
  exists name,
    e = KeyError name
    /\ In name ["SMILES"; "PubMed_Count"; "Patent_Count"]
    /\ ~ In name (icolumns fr).
Proof.
  unfold close_record.
  destruct (find_row fr (inchi_key s) (smiles s)) as [e'|[[row|] m]] eqn:Hf;
    simpl.
  - intros [= <-]. apply find_row_error in Hf.
    destruct Hf as [-> H]. exists "SMILES". simpl. auto.
  - destruct (find_row_some _ _ _ _ _ Hf) as [Hc _]. unfold annotate.
    destruct (getitem row "PubMed_Count") as [e1|pm] eqn:Epm; simpl.
    { intros [= <-]. apply getitem_error in Epm. destruct Epm as [-> H].
      rewrite Hc in H. exists "PubMed_Count". simpl. tauto. }
    destruct (getitem row "Patent_Count") as [e1|pt] eqn:Ept; simpl.
    { intros [= <-]. apply getitem_error in Ept. destruct Ept as [-> H].
      rewrite Hc in H. exists "Patent_Count". simpl. tauto. }
    destruct (insert_counts_total series_str row pm pt (spectrum_block s) Epm Ept)
      as [b ->].
    simpl. discriminate.
  - discriminate.
Qed.

Lemma read_loop_error (series_str : render) (fr : Indexed) (fi : list string)
  (s : Loop) (e : exn) (w : list string) :
  read_loop series_str fr s fi = inl (e, w) ->
  (exists name,
      e = KeyError name
      /\ In name ["SMILES"; "PubMed_Count"; "Patent_Count"]
      /\ ~ In name (icolumns fr))
  /\ exists done l rest s0,
       fi = done ++ l :: rest
       /\ blank l = true
       /\ read_loop series_str fr s done = inr s0
       /\ w = fo s0.
Proof.
  revert s. induction fi as [|l fi IH]; intros s H; simpl in H;
    [discriminate|].
  destruct (loop_body series_str fr s l) as [e'|s1] eqn:E.
  - injection H as <- <-.
    destruct (blank l) eqn:Hb.
    + rewrite (loop_body_blank series_str fr s l Hb) in E.
      split; [apply (close_record_error _ _ _ _ E)|].
      exists [], l, fi, s. repeat split. exact Hb.
    + destruct (loop_body_nonblank series_str fr s l Hb) as [ik [sm E']].
      congruence.
  - destruct (IH s1 H) as [Hname [done [l' [rest [s0 [-> [Hb [Hd ->]]]]]]]].
    split; [exact Hname|].
    exists (l :: done), l', rest, s0. repeat split; auto.
    simpl. now rewrite E.
Qed.

(** X5.  The loop raises nothing but a [KeyError] for one of the three
    columns it reads, and only for a column the table lacks; it does so
    on the blank line that closes a record, and what the output holds
    then is what the lines before that record's end had produced. *)
Theorem loop_raises_only_missing_columns (series_str : render) (fr : Indexed)
  (fi : list string) (e : exn) (w : list string) :
  read_loop series_str fr loop0 fi = inl (e, w) ->
  (exists name,
      e = KeyError name
      /\ In name ["SMILES"; "PubMed_Count"; "Patent_Count"]
      /\ ~ In name (icolumns fr))
  /\ exists done l rest s0,
       fi = done ++ l :: rest
       /\ blank l = true
       /\ read_loop series_str fr loop0 done = inr s0
       /\ w = fo s0.
Proof. apply read_loop_error. Qed.

Lemma loop_raises_only_missing_columns_witness :
  (exists name,
      KeyError "PubMed_Count" = KeyError name
      /\ In name ["SMILES"; "PubMed_Count"; "Patent_Count"]
      /\ ~ In name (icolumns countless_index))
  /\ exists done l rest s0,
       two_records = done ++ l :: rest
       /\ blank l = true
       /\ read_loop series_lines countless_index loop0 done = inr s0
       /\ [line "Name: Unknown"; line ""] = fo s0.
Proof.
  exact (loop_raises_only_missing_columns series_lines countless_index
           two_records (KeyError "PubMed_Count")
           [line "Name: Unknown"; line ""] eq_refl).
Defined.

(** ** The output against the input *)







Lemma consumed_no_blank (fi : list string) :
  existsb blank fi = false -> consumed fi = [].
Proof.
  destruct fi as [|l fi]; simpl; [reflexivity|]. now intros ->.
Qed.




Lemma total_matched_unmatched (ik sm : option string) (st : Stats) :
  total_matched (count_presence ik sm (incr Total_spectra st))
  = total_matched st.
Proof.
  unfold count_presence.
  destruct st, (Py.truthy ik), (Py.truthy sm); reflexivity.
Qed.

Lemma total_matched_matched (ik sm : option string) (m : Method)
  (pm pt : Value) (st : Stats) :
  total_matched
    (append_patent pt
       (append_pubmed pm
          (incr Total_matched
             (count_method m (count_presence ik sm (incr Total_spectra st))))))
  = S (total_matched st).
Proof.
  unfold count_presence.
  destruct st, m, (Py.truthy ik), (Py.truthy sm); reflexivity.
Qed.

Lemma read_loop_unmatched (series_str : render) (fr : Indexed)
  (fi : list string) (s s' : Loop) :
  read_loop series_str fr s fi = inr s' ->
  total_matched (stats s) <= total_matched (stats s')
  /\ (total_matched (stats s') = total_matched (stats s) ->
      fo s' = fo s ++ (if existsb blank fi
                       then spectrum_block s ++ consumed fi else [])).
Proof.
  revert s. induction fi as [|l fi IH]; intros s H; simpl in H.
  - injection H as <-. split; [lia|]. intros _. simpl. now rewrite app_nil_r.
  - destruct (loop_body series_str fr s l) as [e|s1] eqn:E; [discriminate|].
    destruct (IH s1 H) as [Hle Heq]. simpl.
    destruct (blank l) eqn:Hb; simpl.
    + rewrite (loop_body_blank series_str fr s l Hb) in E.
      destruct (close_record_inv _ _ _ _ E)
        as [Hblock [_ [_ [r [m [b [_ [Hfo1 Hr]]]]]]]].
      simpl in Hfo1, Hr. destruct r as [row|].
      * destruct Hr as [pm [pt [_ [_ [_ [_ Hst]]]]]].
        rewrite Hst, total_matched_matched in Hle. split; lia.
      * destruct Hr as [_ [-> Hst]].
        rewrite Hst, total_matched_unmatched in Hle, Heq.
        split; [exact Hle|]. intros Ht. rewrite (Heq Ht), Hfo1, Hblock.
        rewrite <- !app_assoc. simpl.
        destruct (existsb blank fi) eqn:Hfi; [reflexivity|].
        now rewrite (consumed_no_blank _ Hfi).
    + destruct (loop_body_nonblank series_str fr s l Hb) as [ik [sm E']].
      rewrite E' in E. injection E as <-. simpl in Hle, Heq.
      split; [exact Hle|]. intros Ht. rewrite (Heq Ht).
      destruct (existsb blank fi); [|reflexivity].
      now rewrite <- app_assoc.
Qed.

(** X7.  A run in which no record is matched copies its input: the
    output is, line for line, the input up to its last blank line. *)
Theorem unmatched_run_copies_input (series_str : render) (fr : Indexed)
  (fi : list string) :
  has_columns fr ->
  exists s,
    read_loop series_str fr loop0 fi = inr s
    /\ (total_matched (stats s) = 0 -> fo s = consumed fi).
Proof.
  intros Hc.
  destruct (read_loop_counts series_str fr fi loop0 Hc) as [s [Hs _]].
  exists s. split; [exact Hs|]. intros Ht.
  destruct (read_loop_unmatched _ _ _ _ _ Hs) as [_ Heq].
  rewrite (Heq Ht). simpl.
  destruct (existsb blank fi) eqn:E; [reflexivity|].
  now rewrite (consumed_no_blank _ E).
Qed.

Lemma unmatched_run_copies_input_witness :
  exists s,
    read_loop series_lines ethanol_index loop0
      [line "Name: Methanol"; line "Smiles: CO"; line ""; line "Name: Water"]
    = inr s
    /\ (total_matched (stats s) = 0 ->
        fo s = consumed [line "Name: Methanol"; line "Smiles: CO"; line "";
                         line "Name: Water"]).
Proof.
  apply (unmatched_run_copies_input series_lines ethanol_index
           [line "Name: Methanol"; line "Smiles: CO"; line ""; line "Name: Water"]).
  repeat split; simpl; auto.
Defined.

Lemma is_header_false (l : string) :
  is_header l = false ->
  Py.startswith l "Inchikey:" = false
  /\ Py.startswith l "InChIKey:" = false
  /\ Py.startswith l "Smiles:" = false.
Proof.
  unfold is_header. intros H.
  apply orb_false_iff in H. destruct H as [H H3].
  apply orb_false_iff in H. tauto.
Qed.

(** ** Runs on inputs put end to end *)

Lemma merge_stats_incr (k : counter) (a b : Stats) :
  incr k (merge_stats a b) = merge_stats a (incr k b).
Proof.
  destruct a, b, k; unfold merge_stats; simpl; f_equal; lia.
Qed.

Lemma merge_stats_pubmed (v : Value) (a b : Stats) :
  append_pubmed v (merge_stats a b) = merge_stats a (append_pubmed v b).
Proof.
  destruct a, b; unfold merge_stats; simpl. now rewrite app_assoc.
Qed.

Lemma merge_stats_patent (v : Value) (a b : Stats) :
  append_patent v (merge_stats a b) = merge_stats a (append_patent v b).
Proof.
  destruct a, b; unfold merge_stats; simpl. now rewrite app_assoc.
Qed.

Lemma merge_stats_presence (ik sm : option string) (a b : Stats) :
  count_presence ik sm (merge_stats a b)
  = merge_stats a (count_presence ik sm b).
Proof.
  unfold count_presence.
  destruct (Py.truthy ik), (Py.truthy sm); cbn [andb]; apply merge_stats_incr.
Qed.

Lemma merge_stats_method (m : Method) (a b : Stats) :
  count_method m (merge_stats a b) = merge_stats a (count_method m b).
Proof.
  destruct m; cbn [count_method]; [apply merge_stats_incr ..|reflexivity].
Qed.

Lemma merge_stats_stats0 (a : Stats) : merge_stats a stats0 = a.
Proof.
  destruct a; unfold merge_stats; simpl.
  rewrite !Nat.add_0_r, !app_nil_r. reflexivity.
Qed.

Lemma close_record_shift (series_str : render) (fr : Indexed) (st : Stats)
  (out : list string) (s : Loop) :
  close_record series_str fr
    (mkLoop (merge_stats st (stats s)) (out ++ fo s)
            (spectrum_block s) (inchi_key s) (smiles s))
  = match close_record series_str fr s with
    | inl e => inl e
    | inr s' => inr (mkLoop (merge_stats st (stats s')) (out ++ fo s')
                            (spectrum_block s') (inchi_key s') (smiles s'))
    end.
Proof.
  unfold close_record. cbn [stats fo spectrum_block inchi_key smiles].
  rewrite merge_stats_incr, merge_stats_presence.
  destruct (find_row fr (inchi_key s) (smiles s)) as [e|[[row|] m]];
    cbn [bind ret]; [reflexivity| |].
  - unfold annotate.
    rewrite merge_stats_method, merge_stats_incr.
    destruct (getitem row "PubMed_Count") as [e|pm]; cbn [bind ret];
      [reflexivity|].
    destruct (getitem row "Patent_Count") as [e|pt]; cbn [bind ret];
      [reflexivity|].
    destruct (insert_counts series_str row (spectrum_block s)) as [e|b];
      cbn [bind ret]; [reflexivity|].
    cbn [stats fo spectrum_block inchi_key smiles].
    rewrite merge_stats_pubmed, merge_stats_patent, app_assoc.
    reflexivity.
  - cbn [stats fo spectrum_block inchi_key smiles].
    rewrite merge_stats_method, app_assoc. reflexivity.
Qed.

Lemma loop_body_shift (series_str : render) (fr : Indexed) (st : Stats)
  (out : list string) (s : Loop) (l : string) :
  loop_body series_str fr
    (mkLoop (merge_stats st (stats s)) (out ++ fo s)
            (spectrum_block s) (inchi_key s) (smiles s)) l
  = match loop_body series_str fr s l with
    | inl e => inl e
    | inr s' => inr (mkLoop (merge_stats st (stats s')) (out ++ fo s')
                            (spectrum_block s') (inchi_key s') (smiles s'))
    end.
Proof.
  unfold loop_body. simpl.
  destruct (read_header l (inchi_key s, smiles s)) as [e|[ik sm]]; simpl;
    [reflexivity|].
  destruct (String.eqb (Py.strip l) ""); [|reflexivity].
  apply (close_record_shift series_str fr st out
           (mkLoop (stats s) (fo s) (spectrum_block s ++ [l]) ik sm)).
Qed.

Lemma read_loop_shift (series_str : render) (fr : Indexed) (st : Stats)
  (out : list string) (fi : list string) (s : Loop) :
  read_loop series_str fr
    (mkLoop (merge_stats st (stats s)) (out ++ fo s)
            (spectrum_block s) (inchi_key s) (smiles s)) fi
  = continued st out (read_loop series_str fr s fi).
Proof.
  revert s. induction fi as [|l fi IH]; intros s; simpl; [reflexivity|].
  rewrite loop_body_shift.
  destruct (loop_body series_str fr s l) as [e|s1]; simpl; [reflexivity|].
  apply IH.
Qed.

Lemma boundary_state (series_str : render) (fr : Indexed) (fi : list string)
  (s : Loop) :
  at_boundary fi ->
  read_loop series_str fr loop0 fi = inr s ->
  s = mkLoop (stats s) (fo s) [] None None.
Proof.
  intros [->|[pre [l [-> Hb]]]] H.
  - simpl in H. now injection H as <-.
  - rewrite read_loop_app in H.
    destruct (read_loop series_str fr loop0 pre) as [e|s0]; [discriminate|].
    simpl in H. rewrite (loop_body_blank series_str fr s0 l Hb) in H.
    destruct (close_record series_str fr _) as [e|s1] eqn:E; [discriminate|].
    injection H as <-.
    destruct (close_record_inv _ _ _ _ E) as [H1 [H2 [H3 _]]].
    destruct s1; simpl in *. now subst.
Qed.

(** X8.  Records are processed independently of what came before them.
    When an input ends where a record ends, running on it followed by a
    second input gives the second input's own result put after the
    first's: the outputs one after the other, the counters added, the
    sequences of counts joined; an exception of the second run is raised
    with the first output already written. *)
Theorem runs_compose (series_str : render) (fr : Indexed)
  (fi1 fi2 : list string) (s1 : Loop) :
  at_boundary fi1 ->
  read_loop series_str fr loop0 fi1 = inr s1 ->
  read_loop series_str fr loop0 (fi1 ++ fi2)
  = continued (stats s1) (fo s1) (read_loop series_str fr loop0 fi2).
Proof.
  intros Hb H1. rewrite read_loop_app, H1.
  rewrite (boundary_state _ _ _ _ Hb H1).
  rewrite <- read_loop_shift. simpl.
  now rewrite merge_stats_stats0, app_nil_r.
Qed.

Lemma runs_compose_witness :
  read_loop series_lines ethanol_index loop0 (ethanol_record ++ two_records)
  = continued (mkStats 1 1 0 1 1 0 0 0 [Scalar (CInt 12)] [Scalar (CInt 3)])
      [line "Name: Ethanol"; line "InChIKey: ABCDEFGHIJKLMN";
       line "PubMed_Count: 12"; line "Patent_Count: 3";
       line "Num Peaks: 2"; line "1 2"; line "3 4"; line ""]
      (read_loop series_lines ethanol_index loop0 two_records).
Proof.
  apply (runs_compose series_lines ethanol_index ethanol_record two_records
           (mkLoop (mkStats 1 1 0 1 1 0 0 0 [Scalar (CInt 12)] [Scalar (CInt 3)])
                   [line "Name: Ethanol"; line "InChIKey: ABCDEFGHIJKLMN";
                    line "PubMed_Count: 12"; line "Patent_Count: 3";
                    line "Num Peaks: 2"; line "1 2"; line "3 4"; line ""]
                   [] None None)).
  - right. exists [line "Name: Ethanol"; line "InChIKey: ABCDEFGHIJKLMN";
                   line "Num Peaks: 2"; line "1 2"; line "3 4"], (line "").
    split; reflexivity.
  - reflexivity.
Defined.

(** ** Headers within a record *)

Lemma read_header_keeps_inchikey (l : string) (ik sm : option string) :
  is_inchikey_header l = false ->
  exists sm', read_header l (ik, sm) = inr (ik, sm').
Proof.
  unfold is_inchikey_header, read_header. intros ->.
  destruct (Py.startswith l "Smiles:") eqn:E; [|simpl; eauto].
  apply startswith_iff in E. destruct E as [r ->]. simpl. eauto.
Qed.

Lemma nonspace_not_blank (c : ascii) (r : string) :
  Py.isspace c = false -> blank (String c r) = false.
Proof.
  intros Hc. unfold blank, Py.strip. cbn [Py.lstrip]. rewrite Hc.
  now rewrite rstrip_cons_nonspace.
Qed.

Lemma inchikey_header_not_blank (l : string) :
  is_inchikey_header l = true -> blank l = false.
Proof.
  unfold is_inchikey_header. intros H. apply orb_true_iff in H.
  destruct H as [H|H]; apply startswith_iff in H; destruct H as [r ->];
    exact (nonspace_not_blank "I"%char _ eq_refl).
Qed.

Lemma loop_body_collecting (series_str : render) (fr : Indexed) (s : Loop)
  (l : string) :
  blank l = false ->
  is_inchikey_header l = false ->
  exists sm,
    loop_body series_str fr s l
    = inr (mkLoop (stats s) (fo s) (spectrum_block s ++ [l]) (inchi_key s) sm).
Proof.
  intros Hb Hh. unfold loop_body.
  destruct (read_header_keeps_inchikey l (inchi_key s) (smiles s) Hh)
    as [sm' ->].
  simpl. unfold blank in Hb. rewrite Hb. eauto.
Qed.

(** Lines that are neither blank nor InChIKey headers are collected and
    leave statistics, output and primary identifier as they are. *)
Lemma read_loop_collecting (series_str : render) (fr : Indexed)
  (fi : list string) (s : Loop) :
  (forall l, In l fi -> blank l = false) ->
  (forall l, In l fi -> is_inchikey_header l = false) ->
  exists sm,
    read_loop series_str fr s fi
    = inr (mkLoop (stats s) (fo s) (spectrum_block s ++ fi) (inchi_key s) sm).
Proof.
  revert s. induction fi as [|l fi IH]; intros s Hb Hh.
  - exists (smiles s). simpl. rewrite app_nil_r. now destruct s.
  - destruct (loop_body_collecting series_str fr s l) as [sm' E];
      [apply Hb; simpl; auto | apply Hh; simpl; auto |].
    cbn [read_loop]. rewrite E.
    destruct (IH (mkLoop (stats s) (fo s) (spectrum_block s ++ [l])
                         (inchi_key s) sm')) as [sm Hsm];
      [intros l' Hl'; apply Hb; simpl; auto
      |intros l' Hl'; apply Hh; simpl; auto|].
    exists sm. rewrite Hsm. simpl. now rewrite <- app_assoc.
Qed.

Lemma loop_body_inchikey_header (series_str : render) (fr : Indexed)
  (s : Loop) (rest h : string) :
  h = ("InChIKey:" ++ rest)%string \/ h = ("Inchikey:" ++ rest)%string ->
  loop_body series_str fr s h
  = inr (mkLoop (stats s) (fo s) (spectrum_block s ++ [h])
                (Some (Py.strip rest)) (smiles s)).
Proof.
  intros Hh.
  assert (Hhead : is_inchikey_header h = true).
  { unfold is_inchikey_header. apply orb_true_iff.
    destruct Hh as [->| ->]; [right | left]; apply startswith_iff; eauto. }
  assert (Hread : read_header h (inchi_key s, smiles s)
                  = inr (Some (Py.strip rest), smiles s)).
  { destruct Hh as [->| ->]; unfold read_header; simpl;
      now rewrite startswith_empty. }
  unfold loop_body. rewrite Hread. simpl.
  pose proof (inchikey_header_not_blank h Hhead) as Hb.
  unfold blank in Hb. now rewrite Hb.
Qed.

(** X9.  Within a record the last InChIKey header wins: after the
    lines of an unfinished record, the primary identifier is the trimmed
    text after the colon of the last line that starts with [InChIKey:] or
    [Inchikey:], whatever the identifier was before it, and nothing has
    been written or counted. *)
Theorem last_inchikey_header_wins (series_str : render) (fr : Indexed)
  (s : Loop) (pre : list string) (rest : string) (h : string)
  (post : list string) :
  h = ("InChIKey:" ++ rest)%string \/ h = ("Inchikey:" ++ rest)%string ->
  (forall l, In l (pre ++ post) -> blank l = false) ->
  (forall l, In l post -> is_inchikey_header l = false) ->
  exists s',
    read_loop series_str fr s (pre ++ h :: post) = inr s'
    /\ inchi_key s' = Some (Py.strip rest)
    /\ spectrum_block s' = spectrum_block s ++ pre ++ h :: post
    /\ stats s' = stats s /\ fo s' = fo s.
Proof.
  intros Hh Hb Hpost. rewrite read_loop_app.
  destruct (read_loop_unterminated series_str fr pre s)
    as [s0 [H0 [Hst0 Hfo0]]];
    [intros l Hl; apply Hb, in_or_app; auto|].
  rewrite H0.
  assert (Hblock : forall fi t t',
             (forall l, In l fi -> blank l = false) ->
             read_loop series_str fr t fi = inr t' ->
             spectrum_block t' = spectrum_block t ++ fi).
  { clear. induction fi as [|l fi IH]; intros t t' Hb H; simpl in H.
    - injection H as <-. now rewrite app_nil_r.
    - destruct (loop_body_nonblank series_str fr t l) as [ik [sm E]];
        [apply Hb; simpl; auto|].
      rewrite E in H. apply IH in H; [|intros l' Hl'; apply Hb; simpl; auto].
      rewrite H. simpl. now rewrite <- app_assoc. }
  pose proof (Hblock pre s s0
                (fun l Hl => Hb l (in_or_app _ _ _ (or_introl Hl))) H0) as Hb0.
  cbn [read_loop].
  rewrite (loop_body_inchikey_header series_str fr s0 rest h Hh).
  destruct (read_loop_collecting series_str fr post
              (mkLoop (stats s0) (fo s0) (spectrum_block s0 ++ [h])
                      (Some (Py.strip rest)) (smiles s0)))
    as [sm Hsm];
    [intros l Hl; apply Hb, in_or_app; auto | exact Hpost |].
  rewrite Hsm. eexists. split; [reflexivity|]. simpl.
  rewrite Hb0, Hst0, Hfo0, <- !app_assoc. simpl. auto.
Qed.

Lemma last_inchikey_header_wins_witness :
  exists s',
    read_loop series_lines ethanol_index loop0
      ([line "InChIKey: XXXXXXXXXXXXXX"]
         ++ line "InChIKey: ABCDEFGHIJKLMN " :: [line "Num Peaks: 2"])
    = inr s'
    /\ inchi_key s' = Some (Py.strip (line " ABCDEFGHIJKLMN "))
    /\ spectrum_block s'
       = spectrum_block loop0 ++ [line "InChIKey: XXXXXXXXXXXXXX"]
           ++ line "InChIKey: ABCDEFGHIJKLMN " :: [line "Num Peaks: 2"]
    /\ stats s' = stats loop0 /\ fo s' = fo loop0.
Proof.
  apply (last_inchikey_header_wins series_lines ethanol_index loop0
           [line "InChIKey: XXXXXXXXXXXXXX"] (line " ABCDEFGHIJKLMN ")
           (line "InChIKey: ABCDEFGHIJKLMN ") [line "Num Peaks: 2"]).
  - left. reflexivity.
  - intros l [<-|[<-|[]]]; reflexivity.
  - intros l [<-|[]]; reflexivity.
Defined.

(** ** A record matched by its InChIKey *)

Lemma is_str_false (key : string) (c : cell) :
  c <> CStr key -> is_str key c = false.
Proof.
  intros H. destruct (is_str key c) eqn:E; [|reflexivity].
  apply is_str_iff in E. contradiction.
Qed.

Lemma filter_unique {A} (f : A -> bool) (before after : list A) (r : A) :
  f r = true ->
  (forall x, In x (before ++ after) -> f x = false) ->
  filter f (before ++ r :: after) = [r].
Proof.
  intros Hr H. rewrite filter_app. simpl. rewrite Hr.
  assert (Hb : filter f before = [])
    by (apply filter_nil; intros x Hx; apply H, in_or_app; auto).
  assert (Ha : filter f after = [])
    by (apply filter_nil; intros x Hx; apply H, in_or_app; auto).
  now rewrite Hb, Ha.
Qed.

Lemma getitem_field (cols : list string) (cells : list cell) (name : string)
  (c : cell) :
  field cols name cells = Some c ->
  getitem (Series cols cells) name = inr (Scalar c).
Proof.
  unfold field. simpl. destruct (position name cols); simpl; [|discriminate].
  now intros [= ->].
Qed.

(** X10.  A record whose InChIKey indexes exactly one row, with integer
    counts [p] and [q], and which has an anchor line, is written with
    [PubMed_Count: p] and [Patent_Count: q], in decimal, just before its
    first anchor line; it is counted as matched by InChIKey, and [p] and
    [q] join the two sequences, whatever its SMILES is. *)
Theorem unique_inchikey_match_annotated (series_str : render) (fr : Indexed)
  (s : Loop) (k : string) (cells : list cell)
  (before after : list (cell * list cell)) (p q : Z)
  (pre : list string) (a : string) (post : list string) :
  inchi_key s = Some k -> k <> "" ->
  irows fr = before ++ (CStr k, cells) :: after ->
  (forall r, In r (before ++ after) -> fst r <> CStr k) ->
  field (icolumns fr) "PubMed_Count" cells = Some (CInt p) ->
  field (icolumns fr) "Patent_Count" cells = Some (CInt q) ->
  spectrum_block s = pre ++ a :: post ->
  (forall l, In l pre -> is_anchor l = false) ->
  is_anchor a = true ->
  exists s',
    close_record series_str fr s = inr s'
    /\ fo s' = fo s ++ pre
                 ++ ("PubMed_Count: " ++ Py.str_of_int p ++ Py.LF)%string
                 :: ("Patent_Count: " ++ Py.str_of_int q ++ Py.LF)%string
                 :: a :: post
    /\ matched_by_inchikey (stats s') = S (matched_by_inchikey (stats s))
    /\ matched_by_smiles (stats s') = matched_by_smiles (stats s)
    /\ total_matched (stats s') = S (total_matched (stats s))
    /\ pubmed_counts (stats s') = pubmed_counts (stats s) ++ [Scalar (CInt p)]
    /\ patent_counts (stats s') = patent_counts (stats s) ++ [Scalar (CInt q)].
Proof.
  intros Hik Hk Hrows Huniq Hp Hq Hblock Hpre Ha.
  assert (Hf : find_row fr (inchi_key s) (smiles s)
               = inr (Some (Series (icolumns fr) cells), ByInchikey)).
  { unfold find_row. rewrite Hik. simpl.
    apply String.eqb_neq in Hk. rewrite Hk. simpl.
    assert (Hc : index_contains fr k = true).
    { apply index_contains_iff. exists (CStr k, cells).
      rewrite Hrows. split; [apply in_elt | reflexivity]. }
    rewrite Hc. unfold loc. rewrite Hrows.
    rewrite (filter_unique (fun r => is_str k (fst r)) before after
               (CStr k, cells)).
    - reflexivity.
    - simpl. apply String.eqb_refl.
    - intros x Hx. apply is_str_false. apply (Huniq x Hx). }
  apply getitem_field in Hp. apply getitem_field in Hq.
  rewrite (close_record_matched series_str fr s _ _ _ _ _ Hf Hp Hq
             (eq_trans (f_equal _ Hblock)
                (insert_counts_first series_str _ _ _ pre a post Hp Hq Hpre Ha))).
  eexists. split; [reflexivity|]. simpl. unfold count_presence.
  destruct (stats s), (Py.truthy (inchi_key s)), (Py.truthy (smiles s));
    simpl; repeat split.
Qed.

Lemma unique_inchikey_match_annotated_witness :
  exists s',
    close_record series_lines ethanol_index
      (mkLoop stats0 [] ethanol_record (Some "ABCDEFGHIJKLMN") None)
    = inr s'
    /\ fo s' = [] ++ [line "Name: Ethanol"; line "InChIKey: ABCDEFGHIJKLMN"]
                 ++ line "PubMed_Count: 12" :: line "Patent_Count: 3"
                 :: line "Num Peaks: 2" :: [line "1 2"; line "3 4"; line ""]
    /\ matched_by_inchikey (stats s') = 1
    /\ matched_by_smiles (stats s') = 0
    /\ total_matched (stats s') = 1
    /\ pubmed_counts (stats s') = [] ++ [Scalar (CInt 12)]
    /\ patent_counts (stats s') = [] ++ [Scalar (CInt 3)].
Proof.
  apply (unique_inchikey_match_annotated series_lines ethanol_index
           (mkLoop stats0 [] ethanol_record (Some "ABCDEFGHIJKLMN") None)
           "ABCDEFGHIJKLMN" [CStr "CCO"; CInt 12; CInt 3] [] [] 12 3
           [line "Name: Ethanol"; line "InChIKey: ABCDEFGHIJKLMN"]
           (line "Num Peaks: 2") [line "1 2"; line "3 4"; line ""]);
    try reflexivity.
  - discriminate.
  - intros r [].
  - intros l [<-|[<-|[]]]; reflexivity.
Defined.

(** ** The report *)

(** X11.  No report without a closed record: when the table has its
    [FirstBlock] column and no line of the input is blank, whatever the
    lines hold, the division of line 99 is by zero and the run ends in
    [ZeroDivisionError] with nothing written. *)
Theorem no_blank_line_no_report (series_str : render) (pubchem_df : DataFrame)
  (fi : list string) :
  In "FirstBlock" (columns pubchem_df) ->
  (forall l, In l fi -> Py.strip l <> "") ->
  match_pubchem_data series_str pubchem_df fi = Raised ZeroDivisionError [].
Proof.
  intros Hc Hb. unfold match_pubchem_data, set_index.
  destruct (position_In _ _ Hc) as [i ->].
  destruct (read_loop_unterminated series_str
              (mkIndexed (drop i (columns pubchem_df))
                 (map (fun r => (nth i r missing, drop i r)) (data pubchem_df)))
              fi loop0) as [s [-> [Hst Hfo]]].
  - intros l Hl. unfold blank. apply String.eqb_neq. now apply Hb.
  - rewrite Hst, Hfo. reflexivity.
Qed.

Lemma no_blank_line_no_report_witness :
  match_pubchem_data series_lines ethanol_table
    [line "Name: Ethanol"; line "InChIKey: ABCDEFGHIJKLMN"; line "Num Peaks: 2";
     line "1 2"; line "3 4"]
  = Raised ZeroDivisionError [].
Proof.
  apply (no_blank_line_no_report series_lines ethanol_table).
  - simpl. auto.
  - intros l [<-|[<-|[<-|[<-|[<-|[]]]]]]; discriminate.
Defined.

(** ** Annotating twice *)




(** ** Empty identifiers *)

Lemma read_header_valueless (l : string) (ik sm : option string) :
  is_header l = false \/ valueless_header l ->
  Py.truthy ik = false -> Py.truthy sm = false ->
  exists ik' sm',
    read_header l (ik, sm) = inr (ik', sm')
    /\ Py.truthy ik' = false /\ Py.truthy sm' = false.
Proof.
  intros [H|[rest [H Hrest]]] Hik Hsm.
  - apply is_header_false in H. destruct H as [H1 [H2 H3]].
    rewrite (read_header_other l (ik, sm) H1 H2 H3). eauto.
  - destruct H as [->|[->| ->]]; unfold read_header; simpl;
      rewrite startswith_empty, Hrest; simpl; eauto.
Qed.

Lemma close_record_falsy (series_str : render) (fr : Indexed) (st : Stats)
  (out block : list string) (ik sm : option string) :
  Py.truthy ik = false -> Py.truthy sm = false ->
  close_record series_str fr (mkLoop st out block ik sm)
  = inr (mkLoop (incr Spectra_with_neither (incr Total_spectra st))
                (out ++ block) [] None None).
Proof.
  intros Hik Hsm. unfold close_record, count_presence, find_row. simpl.
  now rewrite Hik, Hsm.
Qed.

Lemma read_loop_falsy (series_str : render) (fr : Indexed)
  (fi : list string) (st : Stats) (out block : list string)
  (ik sm : option string) :
  (forall l, In l fi -> is_header l = false \/ valueless_header l) ->
  Py.truthy ik = false -> Py.truthy sm = false ->
  exists block' ik' sm',
    read_loop series_str fr (mkLoop st out block ik sm) fi
    = inr (mkLoop
             (mkStats (total_spectra st + records fi)
                      (matched_by_inchikey st) (matched_by_smiles st)
                      (total_matched st) (spectra_with_inchikey st)
                      (spectra_with_smiles st) (spectra_with_both st)
                      (spectra_with_neither st + records fi)
                      (pubmed_counts st) (patent_counts st))
             (out ++ (if existsb blank fi then block ++ consumed fi else []))
             block' ik' sm').
Proof.
  revert st out block ik sm.
  induction fi as [|l fi IH]; intros st out block ik sm H Hik Hsm.
  - exists block, ik, sm. simpl. unfold records. simpl.
    rewrite !Nat.add_0_r, app_nil_r. now destruct st.
  - assert (Hfi : forall l', In l' fi ->
                             is_header l' = false \/ valueless_header l')
      by (intros l' Hl'; apply H; simpl; auto).
    destruct (read_header_valueless l ik sm (H l (or_introl eq_refl)) Hik Hsm)
      as [ik1 [sm1 [Hread [Hik1 Hsm1]]]].
    cbn [read_loop]. unfold loop_body.
    cbn [stats fo spectrum_block inchi_key smiles].
    rewrite Hread. cbn [bind]. fold (blank l).
    unfold records. cbn [filter existsb consumed].
    destruct (blank l) eqn:Hb; cbn [orb length].
    + rewrite (close_record_falsy series_str fr st out (block ++ [l])
                 ik1 sm1 Hik1 Hsm1).
      destruct (IH (incr Spectra_with_neither (incr Total_spectra st))
                   (out ++ block ++ [l]) [] None None Hfi eq_refl eq_refl)
        as [block' [ik' [sm' ->]]].
      exists block', ik', sm'. f_equal. unfold records. f_equal.
      * destruct st; simpl. f_equal; lia.
      * rewrite <- !app_assoc. simpl.
        destruct (existsb blank fi) eqn:E; [reflexivity|].
        now rewrite (consumed_no_blank _ E).
    + unfold ret.
      destruct (IH st out (block ++ [l]) ik1 sm1 Hfi Hik1 Hsm1)
        as [block' [ik' [sm' ->]]].
      exists block', ik', sm'. f_equal. unfold records. f_equal.
      destruct (existsb blank fi); [|reflexivity].
      now rewrite <- app_assoc.
Qed.

(** X13.  An identifier header with nothing but white space after its
    colon gives the empty string, which counts as no identifier: an input
    whose headers are all of this kind is read like one without headers,
    whatever the table, copied up to its last blank line, each record
    counted as bearing neither identifier and as unmatched. *)
Theorem valueless_headers_ignored (series_str : render) (fr : Indexed)
  (fi : list string) :
  (forall l, In l fi -> is_header l = false \/ valueless_header l) ->
  exists s,
    read_loop series_str fr loop0 fi = inr s
    /\ fo s = consumed fi
    /\ stats s = mkStats (records fi) 0 0 0 0 0 0 (records fi) [] [].
Proof.
  intros H.
  destruct (read_loop_falsy series_str fr fi stats0 [] [] None None H
              eq_refl eq_refl) as [b [ik [sm Hb]]].
  eexists. split; [exact Hb|]. simpl. split; [|reflexivity].
  destruct (existsb blank fi) eqn:E; [reflexivity|].
  now rewrite (consumed_no_blank _ E).
Qed.

Lemma valueless_headers_ignored_witness :
  exists s,
    read_loop series_lines (mkIndexed [] []) loop0
      [line "Name: Water"; line "InChIKey:  "; line "Smiles:"; line ""]
    = inr s
    /\ fo s = consumed [line "Name: Water"; line "InChIKey:  ";
                        line "Smiles:"; line ""]
    /\ stats s
       = mkStats (records [line "Name: Water"; line "InChIKey:  ";
                           line "Smiles:"; line ""])
                 0 0 0 0 0 0
                 (records [line "Name: Water"; line "InChIKey:  ";
                           line "Smiles:"; line ""]) [] [].
Proof.
  apply (valueless_headers_ignored series_lines (mkIndexed [] [])
           [line "Name: Water"; line "InChIKey:  "; line "Smiles:"; line ""]).
  intros l [<-|[<-|[<-|[<-|[]]]]].
  - left. reflexivity.
  - right. exists (line "  "). split; [auto | reflexivity].
  - right. exists (line ""). split; [auto | reflexivity].
  - left. reflexivity.
Defined.

(** ** A record matched by its SMILES *)

Lemma field_position (cols : list string) (name : string) (cells : list cell)
  (c : cell) :
  field cols name cells = Some c ->
  exists i, position name cols = Some i /\ nth i cells missing = c.
Proof.
  unfold field. destruct (position name cols) as [i|]; simpl; [|discriminate].
  intros [= <-]. eauto.
Qed.

Lemma find_row_by_smiles (fr : Indexed) (ik : option string) (v : string)
  (lab : cell) (cells : list cell) (before after : list (cell * list cell)) :
  ~ primary_found fr ik -> v <> "" ->
  irows fr = before ++ (lab, cells) :: after ->
  field (icolumns fr) "SMILES" cells = Some (CStr v) ->
  (forall r, In r before ->
             field (icolumns fr) "SMILES" (snd r) <> Some (CStr v)) ->
  find_row fr ik (Some v) = inr (Some (Series (icolumns fr) cells), BySmiles).
Proof.
  intros Hn Hv Hrows Hcell Hbefore. unfold find_row.
  destruct (Py.truthy ik && index_contains fr (str_of ik)) eqn:E;
    [now elim Hn; apply primary_found_iff|].
  simpl. apply String.eqb_neq in Hv. rewrite Hv. simpl.
  destruct (field_position _ _ _ _ Hcell) as [i [Hi Hnth]].
  unfold column. rewrite Hi. simpl.
  unfold masked, empty, iloc0. simpl.
  rewrite map_map, select_map, Hrows, filter_app. simpl. rewrite Hnth. simpl.
  rewrite String.eqb_refl.
  assert (Hb : filter (fun r : cell * list cell => is_str v (nth i (snd r) missing))
                      before = []).
  { apply filter_nil. intros r Hr. apply is_str_false. intros Hc.
    apply (Hbefore r Hr). unfold field. rewrite Hi. simpl. now rewrite Hc. }
  rewrite Hb. reflexivity.
Qed.

(** X14.  A record matched by its SMILES takes the first row of the
    table that holds this SMILES, whatever rows follow: when the InChIKey
    of the record is empty or indexes no row, and that first row has
    integer counts [p] and [q], the record is written with
    [PubMed_Count: p] and [Patent_Count: q] just before its first anchor
    line and is counted as matched by SMILES. *)
Theorem first_smiles_row_annotated (series_str : render) (fr : Indexed)
  (s : Loop) (v : string) (lab : cell) (cells : list cell)
  (before after : list (cell * list cell)) (p q : Z)
  (pre : list string) (a : string) (post : list string) :
  ~ primary_found fr (inchi_key s) ->
  smiles s = Some v -> v <> "" ->
  irows fr = before ++ (lab, cells) :: after ->
  field (icolumns fr) "SMILES" cells = Some (CStr v) ->
  (forall r, In r before ->
             field (icolumns fr) "SMILES" (snd r) <> Some (CStr v)) ->
  field (icolumns fr) "PubMed_Count" cells = Some (CInt p) ->
  field (icolumns fr) "Patent_Count" cells = Some (CInt q) ->
  spectrum_block s = pre ++ a :: post ->
  (forall l, In l pre -> is_anchor l = false) ->
  is_anchor a = true ->
  exists s',
    close_record series_str fr s = inr s'
    /\ fo s' = fo s ++ pre
                 ++ ("PubMed_Count: " ++ Py.str_of_int p ++ Py.LF)%string
                 :: ("Patent_Count: " ++ Py.str_of_int q ++ Py.LF)%string
                 :: a :: post
    /\ matched_by_smiles (stats s') = S (matched_by_smiles (stats s))
    /\ matched_by_inchikey (stats s') = matched_by_inchikey (stats s)
    /\ total_matched (stats s') = S (total_matched (stats s))
    /\ pubmed_counts (stats s') = pubmed_counts (stats s) ++ [Scalar (CInt p)]
    /\ patent_counts (stats s') = patent_counts (stats s) ++ [Scalar (CInt q)].
Proof.
  intros Hn Hsm Hv Hrows Hcell Hbefore Hp Hq Hblock Hpre Ha.
  pose proof (find_row_by_smiles fr (inchi_key s) v lab cells before after
                Hn Hv Hrows Hcell Hbefore) as Hf.
  rewrite <- Hsm in Hf.
  apply getitem_field in Hp. apply getitem_field in Hq.
  rewrite (close_record_matched series_str fr s _ _ _ _ _ Hf Hp Hq
             (eq_trans (f_equal _ Hblock)
                (insert_counts_first series_str _ _ _ pre a post Hp Hq Hpre Ha))).
  eexists. split; [reflexivity|]. simpl. unfold count_presence.
  destruct (stats s), (Py.truthy (inchi_key s)), (Py.truthy (smiles s));
    simpl; repeat split.
Qed.

Lemma first_smiles_row_annotated_witness :
  exists s',
    close_record series_lines
      (mkIndexed ["SMILES"; "PubMed_Count"; "Patent_Count"]
         [(CStr "AAAAAAAAAAAAAA", [CStr "CCO"; CInt 12; CInt 3]);
          (CStr "BBBBBBBBBBBBBB", [CStr "CCO"; CInt 7; CInt 5])])
      (mkLoop stats0 [] [line "Smiles: CCO"; line "Num Peaks: 1"; line ""]
              None (Some "CCO"))
    = inr s'
    /\ fo s' = [] ++ [line "Smiles: CCO"]
                 ++ line "PubMed_Count: 12" :: line "Patent_Count: 3"
                 :: line "Num Peaks: 1" :: [line ""]
    /\ matched_by_smiles (stats s') = 1
    /\ matched_by_inchikey (stats s') = 0
    /\ total_matched (stats s') = 1
    /\ pubmed_counts (stats s') = [] ++ [Scalar (CInt 12)]
    /\ patent_counts (stats s') = [] ++ [Scalar (CInt 3)].
Proof.
  apply (first_smiles_row_annotated series_lines
           (mkIndexed ["SMILES"; "PubMed_Count"; "Patent_Count"]
              [(CStr "AAAAAAAAAAAAAA", [CStr "CCO"; CInt 12; CInt 3]);
               (CStr "BBBBBBBBBBBBBB", [CStr "CCO"; CInt 7; CInt 5])])
           (mkLoop stats0 [] [line "Smiles: CCO"; line "Num Peaks: 1"; line ""]
                   None (Some "CCO"))
           "CCO" (CStr "AAAAAAAAAAAAAA") [CStr "CCO"; CInt 12; CInt 3]
           [] [(CStr "BBBBBBBBBBBBBB", [CStr "CCO"; CInt 7; CInt 5])] 12 3
           [line "Smiles: CCO"] (line "Num Peaks: 1") [line ""]);
    try reflexivity.
  - intros [H _]. discriminate H.
  - discriminate.
  - intros r [].
  - intros l [<-|[]]; reflexivity.
Defined.
